(** * pyFlyEye: the image inventory notebook (ImageInventory.ipynb)

    A shallow embedding of the notebook's three code cells that build the
    inventory of the TIFF files of an S3 bucket:

    - [read_metadata]: the tags of a TIFF file as a dictionary, with the
      ImageJ [image_description] expanded into fields of its own;
    - [process_tif]: dumps that dictionary to a metadata file and keeps six
      fields of it as a one-row data frame;
    - the batch loop over the bucket's listing, with its two global lists
      [tif_files] and [tif_files_done].

    Python values are modelled as the code has them: [str] as [string],
    [bytes] as [list byte], [int] as [Z], [float] as the kernel's binary64
    floats, [dict] as [gmap string _], and a raised exception as the [Raise]
    branch of an error monad. *)

From Stdlib Require Import ZArith String Ascii List Floats.
From stdpp Require Import gmap strings list pretty.

Local Open Scope string_scope.
Local Open Scope list_scope.
Local Open Scope Z_scope.

(** ** Exceptions *)

(** The exceptions the three cells can raise. Python raises [ValueError]
    from three places; they are kept apart by constructor. *)
Inductive exn : Type :=
  | ValueError_unpack   (* key, value = item.split('=') : not two parts *)
  | ValueError_int      (* int(value) : not an integer literal *)
  | ValueError_tiff     (* tifffile.TiffFile : not a TIFF file *)
  | UnicodeDecodeError  (* bytes.decode('ASCII') : a byte above 0x7f *)
  | AttributeError      (* tag.value.decode : the value is not bytes *)
  | TypeError           (* tag.value[0] : the value is not a sequence *)
  | IndexError          (* tag.value[0] : the sequence is empty *)
  | OverflowError       (* float(n) : n too large for a float *)
  | ClientError.        (* download_file : the object cannot be fetched *)

Inductive result (A : Type) : Type :=
  | Ok (a : A)
  | Raise (e : exn).
Arguments Ok {A} a.
Arguments Raise {A} e.

#[export] Instance result_ret : MRet result := fun A a => Ok a.
#[export] Instance result_bind : MBind result := fun A B f m =>
  match m with
  | Ok a => f a
  | Raise e => Raise e
  end.

(** [for x in l: acc = f(acc, x)], stopping at the first exception. *)
Fixpoint foldM {A B : Type} (f : B → A → result B) (b : B) (l : list A) : result B :=
  match l with
  | [] => Ok b
  | x :: l' => b' ← f b x; foldM f b' l'
  end.

(** ** Python strings *)

Definition LF : ascii := "010"%char.

(** [s.split(sep)] for a separator of one character. The result is never
    empty: [''.split(sep) == ['']]. *)
Fixpoint split_on (sep : ascii) (s : string) : list string :=
  match s with
  | EmptyString => [EmptyString]
  | String c s' =>
      if Ascii.eqb c sep then EmptyString :: split_on sep s'
      else match split_on sep s' with
           | seg :: segs => String c seg :: segs
           | [] => [String c EmptyString]
           end
  end.

(** [sub in s] *)
Fixpoint contains (sub s : string) : bool :=
  String.prefix sub s ||
  match s with
  | EmptyString => false
  | String _ s' => contains sub s'
  end.

(** [s.endswith(suffix)] *)
Fixpoint endswith (s suffix : string) : bool :=
  String.eqb s suffix ||
  match s with
  | EmptyString => false
  | String _ s' => endswith s' suffix
  end.

(** [bool(s)] for a string: the empty string is the only false one. *)
Definition py_bool (s : string) : bool :=
  match s with
  | EmptyString => false
  | String _ _ => true
  end.

(** *** [int(s)]

    CPython's [PyLong_FromString] in base 10 on an ASCII string: blanks
    (tab, line feed, vertical tab, form feed, carriage return, space) are
    skipped on both sides, one sign is allowed, then digits, where one
    underscore may stand between two digits. *)
Definition is_space (c : ascii) : bool :=
  let n := N_of_ascii c in
  ((9 <=? n)%N && (n <=? 13)%N) || (n =? 32)%N.

Definition digit_value (c : ascii) : option Z :=
  let n := Z.of_N (N_of_ascii c) in
  if (48 <=? n) && (n <=? 57) then Some (n - 48) else None.

Fixpoint lstrip (s : string) : string :=
  match s with
  | String c s' => if is_space c then lstrip s' else s
  | EmptyString => EmptyString
  end.

Fixpoint all_space (s : string) : bool :=
  match s with
  | String c s' => is_space c && all_space s'
  | EmptyString => true
  end.

(** What the digit scanner has just read. *)
Inductive scanned : Type := Nothing | Digit | Underscore.

(** The digits and underscores at the head of [s], with the rest of [s];
    [None] for a misplaced underscore or no digit at all. *)
Fixpoint scan_digits (prev : scanned) (acc : Z) (s : string) : option (Z * string) :=
  let stop :=
    match prev with
    | Digit => Some (acc, s)
    | Nothing | Underscore => None
    end in
  match s with
  | EmptyString => stop
  | String c s' =>
      match digit_value c with
      | Some v => scan_digits Digit (10 * acc + v) s'
      | None =>
          if Ascii.eqb c "_" then
            match prev with
            | Digit => scan_digits Underscore acc s'
            | Nothing | Underscore => None
            end
          else stop
      end
  end.

Definition py_int (s : string) : result Z :=
  let (sign, body) :=
    match lstrip s with
    | String "+" s' => (1, s')
    | String "-" s' => (-1, s')
    | s' => (1, s')
    end in
  match scan_digits Nothing 0 body with
  | Some (n, rest) => if all_space rest then Ok (sign * n) else Raise ValueError_int
  | None => Raise ValueError_int
  end.

(** *** [float(n)] for an [int]

    The nearest binary64 float (ties to even); [OverflowError] when the
    integer is beyond the largest finite float. *)
Definition py_float (n : Z) : result float :=
  let f := SF2Prim (binary_normalize prec emax n 0 false) in
  if PrimFloat.is_infinity f then Raise OverflowError else Ok f.

(** ** Values *)

(** What a value of the metadata dictionary can be; [VNone] is Python's
    [None], which only the reduced dictionary of [process_tif] holds. *)
Inductive pyval : Type :=
  | VStr (s : string)
  | VInt (n : Z)
  | VBool (b : bool)
  | VFloat (f : float)
  | VNone.

(** The value of a TIFF tag as tifffile hands it over: the bytes of an ASCII
    tag, a number, or a tuple of numbers (offsets, byte counts, rationals).
    tifffile keeps [strip_byte_counts] a tuple even when it has one entry. *)
Inductive tagval : Type :=
  | TBytes (bs : list Byte.byte)
  | TInt (n : Z)
  | TTuple (ns : list Z).

Record TiffTag : Type := { name : string; value : tagval }.

(** A page is its tags in the order [page.tags.values()] yields them; a TIFF
    file is its pages in order. *)
Definition TiffPage : Type := list TiffTag.

(** [bs.decode('ASCII')] *)
Fixpoint decode_ascii (bs : list Byte.byte) : result string :=
  match bs with
  | [] => Ok EmptyString
  | b :: bs' =>
      if (Byte.to_N b <? 128)%N
      then s ← decode_ascii bs'; Ok (String (ascii_of_byte b) s)
      else Raise UnicodeDecodeError
  end.

(** [tag.value.decode('ASCII')] *)
Definition decode (v : tagval) : result string :=
  match v with
  | TBytes bs => decode_ascii bs
  | TInt _ | TTuple _ => Raise AttributeError
  end.

(** [tag.value[0]] *)
Definition subscript0 (v : tagval) : result Z :=
  match v with
  | TTuple (n :: _) => Ok n
  | TBytes (b :: _) => Ok (Z.of_N (Byte.to_N b))
  | TTuple [] | TBytes [] => Raise IndexError
  | TInt _ => Raise TypeError
  end.

(** *** [str(tag.value)] *)

Definition hex_digit (n : N) : ascii :=
  ascii_of_N (if (n <? 10)%N then 48 + n else 87 + n).

Definition backslash : ascii := "092"%char.
Definition double_quote : ascii := "034"%char.

(** One byte inside [repr] of a [bytes] object quoted with [quote]. *)
Definition repr_byte (quote : ascii) (b : Byte.byte) : string :=
  let c := ascii_of_byte b in
  let n := Byte.to_N b in
  if Ascii.eqb c quote || Ascii.eqb c backslash then String backslash (String c EmptyString)
  else if (n =? 9)%N then String backslash "t"
  else if (n =? 10)%N then String backslash "n"
  else if (n =? 13)%N then String backslash "r"
  else if (n <? 32)%N || (127 <=? n)%N
       then String backslash (String "x" (String (hex_digit (n / 16)) (String (hex_digit (n mod 16)) EmptyString)))
       else String c EmptyString.

Definition mem_byte (c : ascii) (bs : list Byte.byte) : bool :=
  existsb (fun b => Ascii.eqb (ascii_of_byte b) c) bs.

Definition repr_bytes (bs : list Byte.byte) : string :=
  let quote : ascii :=
    if mem_byte "'" bs && negb (mem_byte double_quote bs) then double_quote else "'"%char in
  String "b" (String quote (fold_right (fun b s => repr_byte quote b +:+ s) (String quote EmptyString) bs)).

Fixpoint join (sep : string) (l : list string) : string :=
  match l with
  | [] => EmptyString
  | [s] => s
  | s :: l' => s +:+ sep +:+ join sep l'
  end.

Definition repr_tuple (ns : list Z) : string :=
  match ns with
  | [n] => "(" +:+ pretty n +:+ ",)"
  | _ => "(" +:+ join ", " (pretty <$> ns) +:+ ")"
  end.

Definition py_str (v : tagval) : string :=
  match v with
  | TBytes bs => repr_bytes bs
  | TInt n => pretty n
  | TTuple ns => repr_tuple ns
  end.

(** ** [read_metadata] *)

(** The conversion of one field of the image description: [int(value)] for
    the three counters, [bool(value)] for [hyperstack], the string itself
    for every other key. *)
Definition convert (key value : string) : result pyval :=
  if bool_decide (key ∈ ["images"; "channels"; "slices"]) then n ← py_int value; Ok (VInt n)
  else if bool_decide (key = "hyperstack") then Ok (VBool (py_bool value))
  else Ok (VStr value).

(** The body of the loop over the lines of the description:
    [key, value = item.split('=')], then [d[key] = ...]. *)
Definition store_item (d : gmap string pyval) (item : string) : result (gmap string pyval) :=
  match split_on "=" item with
  | [key; value] => v ← convert key value; Ok (<[key := v]> d)
  | _ => Raise ValueError_unpack
  end.

(** [tag.value.decode('ASCII').split('\n')[:-1]] *)
Definition description_items (v : tagval) : result (list string) :=
  text ← decode v; Ok (removelast (split_on LF text)).

(** The body of the loop over the tags of a page. *)
Definition store_tag (d : gmap string pyval) (tag : TiffTag) : result (gmap string pyval) :=
  if bool_decide (name tag = "image_description") then
    items ← description_items (value tag); foldM store_item d items
  else if bool_decide (name tag = "strip_byte_counts") then
    n ← subscript0 (value tag);
    f ← py_float n;
    Ok (<["sizeInGB" := VFloat (f / 1000000000)%float]> d)
  else
    Ok (<[name tag := VStr (py_str (value tag))]> d).

(** [read_metadata(filename)], on the pages of the file [filename] names. *)
Definition read_metadata (tif : list TiffPage) : result (gmap string pyval) :=
  foldM (foldM store_tag) ∅ tif.

(** ** [process_tif] *)

Definition METADATA : string := "data/metadata".

(** [os.path.join(a, b)] (posixpath) *)
Definition os_path_join (a b : string) : string :=
  if String.prefix "/" b then b
  else if String.eqb a EmptyString || endswith a "/" then a +:+ b
  else a +:+ "/" +:+ b.

(** [l[-1]] and [l[0]] on the list a split returns, which is never empty. *)
Definition item_last (l : list string) : string := default EmptyString (last l).
Definition item_0 (l : list string) : string := default EmptyString (head l).

(** [os.path.join(METADATA, label.split('/')[-1].split('.')[0] + '_metadata.txt')] *)
Definition metadata_filename (label : string) : string :=
  os_path_join METADATA
    (item_0 (split_on "." (item_last (split_on "/" label))) +:+ "_metadata.txt").

Definition reduced_keys : list string :=
  ["image_width"; "image_length"; "channels"; "slices"; "hyperstack"; "sizeInGB"].

(** The loop that builds [small_d] out of [d]. *)
Definition small_d (d : gmap string pyval) : gmap string pyval :=
  fold_left
    (fun small key =>
       match d !! key with
       | Some v => <[key := v]> small
       | None => <[key := VNone]> small
       end)
    reduced_keys ∅.

(** [pd.DataFrame(small_d, index = [label])]: one row, named [label]. *)
Record DataFrame : Type := { index : string; row : gmap string pyval }.

(** [process_tif(filename, label)], on the pages of the file and the
    directory of metadata files (file name to the dictionary dumped into it
    as JSON). The directory is written only when [read_metadata] returns. *)
Definition process_tif (files : gmap string (gmap string pyval)) (tif : list TiffPage)
    (label : string) : result (gmap string (gmap string pyval) * DataFrame) :=
  d ← read_metadata tif;
  let files := <[metadata_filename label := d]> files in
  Ok (files, {| index := label; row := small_d d |}).

(** ** The batch loop *)

Definition exclude_list : list string :=
  ["Lepto_fovea"; "Lepto_head_lowres"; "Holco_Scan53_fly1"].

(** What [download_file] and [tifffile.TiffFile] make of an object of the
    bucket: the download fails, or the file is not a TIFF file, or it is
    one, with its pages. *)
Inductive body : Type :=
  | Unreachable
  | NotTiff
  | Tiff (pages : list TiffPage).

(** An entry of [cornea_bucket.objects.all()]. *)
Record s3_object : Type := { key : string; content : body }.

(** A line of the inventory file: the header [to_csv] writes when it
    creates the file (the columns of the frame), or the row of an image. *)
Inductive csv_line : Type :=
  | Header (columns : gset string)
  | Row (df : DataFrame).

(** The state the loop works on: the two global lists, the inventory file
    ([None] while [os.path.isfile(INVENTORY_FILE)] is false), the directory
    of metadata files, and the keys [download_file] was called with, in
    order. *)
Record notebook : Type := {
  tif_files : list string;
  tif_files_done : list string;
  inventory : option (list csv_line);
  metadata : gmap string (gmap string pyval);
  downloads : list string;
}.

(** The cell that sets up the two lists; the files are as the last run
    left them. *)
Definition start (inv : option (list csv_line)) (md : gmap string (gmap string pyval)) : notebook :=
  {| tif_files := []; tif_files_done := []; inventory := inv; metadata := md; downloads := [] |}.

(** [df.to_csv(INVENTORY_FILE, mode = 'a', header = None)] if the file is
    there, [df.to_csv(INVENTORY_FILE)] otherwise. *)
Definition to_csv (inv : option (list csv_line)) (df : DataFrame) : option (list csv_line) :=
  match inv with
  | Some lines => Some (lines ++ [Row df])
  | None => Some [Header (dom (row df)); Row df]
  end.

(** One turn of [for file in files]: the state it leaves, and the exception
    that ends the loop, if one is raised. *)
Definition loop_body (w : notebook) (file : s3_object) : notebook * option exn :=
  let exclude :=
    fold_left (fun exclude name => if contains name (key file) then true else exclude)
      exclude_list false in
  if negb exclude then
    if endswith (key file) "tif" then
      let w := {| tif_files := tif_files w ++ [key file]; tif_files_done := tif_files_done w;
                  inventory := inventory w; metadata := metadata w; downloads := downloads w |} in
      if negb (bool_decide (key file ∈ tif_files_done w)) then
        let w := {| tif_files := tif_files w; tif_files_done := tif_files_done w;
                    inventory := inventory w; metadata := metadata w;
                    downloads := downloads w ++ [key file] |} in
        match content file with
        | Unreachable => (w, Some ClientError)
        | NotTiff => (w, Some ValueError_tiff)
        | Tiff pages =>
            match process_tif (metadata w) pages (key file) with
            | Raise e => (w, Some e)
            | Ok (files, df) =>
                ({| tif_files := tif_files w;
                    tif_files_done := tif_files_done w ++ [key file];
                    inventory := to_csv (inventory w) df;
                    metadata := files;
                    downloads := downloads w |}, None)
            end
        end
      else (w, None)
    else (w, None)
  else (w, None).

(** [for file in files: ...] *)
Fixpoint batch_loop (w : notebook) (files : list s3_object) : notebook * option exn :=
  match files with
  | [] => (w, None)
  | file :: files' =>
      match loop_body w file with
      | (w', None) => batch_loop w' files'
      | (w', Some e) => (w', Some e)
      end
  end.

(** ** The loop over the TIFF sequences

    The cell of the full notebook that repeats the batch loop with the test
    on [exclude] turned round ([if exclude:]): it goes through the files of
    the folders the batch loop leaves out. *)
Definition loop_body_sequences (w : notebook) (file : s3_object) : notebook * option exn :=
  let exclude :=
    fold_left (fun exclude name => if contains name (key file) then true else exclude)
      exclude_list false in
  if exclude then
    if endswith (key file) "tif" then
      let w := {| tif_files := tif_files w ++ [key file]; tif_files_done := tif_files_done w;
                  inventory := inventory w; metadata := metadata w; downloads := downloads w |} in
      if negb (bool_decide (key file ∈ tif_files_done w)) then
        let w := {| tif_files := tif_files w; tif_files_done := tif_files_done w;
                    inventory := inventory w; metadata := metadata w;
                    downloads := downloads w ++ [key file] |} in
        match content file with
        | Unreachable => (w, Some ClientError)
        | NotTiff => (w, Some ValueError_tiff)
        | Tiff pages =>
            match process_tif (metadata w) pages (key file) with
            | Raise e => (w, Some e)
            | Ok (files, df) =>
                ({| tif_files := tif_files w;
                    tif_files_done := tif_files_done w ++ [key file];
                    inventory := to_csv (inventory w) df;
                    metadata := files;
                    downloads := downloads w |}, None)
            end
        end
      else (w, None)
    else (w, None)
  else (w, None).

Fixpoint batch_loop_sequences (w : notebook) (files : list s3_object) : notebook * option exn :=
  match files with
  | [] => (w, None)
  | file :: files' =>
      match loop_body_sequences w file with
      | (w', None) => batch_loop_sequences w' files'
      | (w', Some e) => (w', Some e)
      end
  end.

(** ** Vocabulary of the statements *)

(** [c] occurs in [s]. *)
Fixpoint mem_char (c : ascii) (s : string) : bool :=
  match s with
  | EmptyString => false
  | String c' s' => Ascii.eqb c' c || mem_char c s'
  end.

(** The key of a line of the description: what stands before its first [=]. *)
Definition item_key (item : string) : string := item_0 (split_on "=" item).

(** The keys of the dictionary a tag is stored under. *)
Definition tag_keys (tag : TiffTag) : list string :=
  if bool_decide (name tag = "image_description") then
    match description_items (value tag) with
    | Ok items => item_key <$> items
    | Raise _ => []
    end
  else if bool_decide (name tag = "strip_byte_counts") then ["sizeInGB"]
  else [name tag].

(** The rows of the inventory file that are named [label]. *)
Definition rows_of (label : string) (inv : option (list csv_line)) : list DataFrame :=
  match inv with
  | None => []
  | Some lines =>
      omap (fun line =>
              match line with
              | Row df => if bool_decide (index df = label) then Some df else None
              | Header _ => None
              end) lines
  end.

(** How often [download_file] was called with [label]. *)
Definition download_count (label : string) (w : notebook) : nat :=
  length (filter (fun k => k = label) (downloads w)).

(** The state [loop_body] leaves when it has fetched [k] and gone no
    further. *)
Definition staged (w : notebook) (k : string) : notebook :=
  {| tif_files := tif_files w ++ [k]; tif_files_done := tif_files_done w;
     inventory := inventory w; metadata := metadata w;
     downloads := downloads w ++ [k] |}.

(** The bytes of an ASCII text, and a text of several lines, each ended by a
    line feed. *)
Definition encode (s : string) : list Byte.byte := list_byte_of_string s.

Definition unlines (l : list string) : string :=
  fold_right (fun line s => line +:+ String LF s) EmptyString l.

(** The two tags [read_metadata] treats on their own. *)
Definition description (text : string) : TiffTag :=
  {| name := "image_description"; value := TBytes (encode text) |}.

Definition strip_byte_counts (ns : list Z) : TiffTag :=
  {| name := "strip_byte_counts"; value := TTuple ns |}.

(** Two files of one page where a line of the description and a tag share
    the key [orientation]: the tag after the description, as the tag
    numbers 270 and 274 order them, and the other way round. *)
Definition tif_tag_last : list TiffPage :=
  [[description (unlines ["orientation=7"]); {| name := "orientation"; value := TInt 1 |}]].

Definition tif_description_last : list TiffPage :=
  [[{| name := "orientation"; value := TInt 1 |}; description (unlines ["orientation=7"])]].

(** A file of one page with a width and a description that counts the
    channels. *)
Definition tif_two_fields : list TiffPage :=
  [[{| name := "image_width"; value := TInt 512 |}; description (unlines ["channels=2"])]].

(** The name of the metadata file as the spec words it: the last segment of
    the label's path, its extension stripped (what follows its last dot, as
    [os.path.splitext] has it), [_metadata.txt] appended. *)
Definition strip_extension (s : string) : string :=
  match split_on "." s with
  | [] | [_] => s
  | parts => join "." (removelast parts)
  end.

Definition entry_name_by_extension (label : string) : string :=
  os_path_join METADATA
    (strip_extension (item_last (split_on "/" label)) +:+ "_metadata.txt").

(** [key] passes the two tests at the head of the loop. *)
Definition wanted (k : string) : bool :=
  negb (existsb (fun name => contains name k) exclude_list) && endswith k "tif".

(** A bucket of one good file, and one where a file with a line without
    [=] in its description comes first. *)
Definition file_a : s3_object :=
  {| key := "Scan050/a.tif"; content := Tiff tif_two_fields |}.

Definition file_bad : s3_object :=
  {| key := "Scan049/bad.tif";
     content := Tiff [[description (unlines ["images=3"; "no separator"])]] |}.

(** The notebook run on the bucket [[file_a]] with nothing on disk, and
    run once more from its first cells on the files the first run left. *)
Definition first_run : notebook := (batch_loop (start None ∅) [file_a]).1.

Definition second_run : notebook :=
  (batch_loop (start (inventory first_run) (metadata first_run)) [file_a]).1.

(** What [read_metadata] returns on [tif_two_fields], and the row
    [process_tif] makes of it for [file_a]. *)
Definition d_two_fields : gmap string pyval :=
  <["channels" := VInt 2]> (<["image_width" := VStr "512"]> ∅).

Definition row_a : DataFrame :=
  {| index := "Scan050/a.tif"; row := small_d d_two_fields |}.

(** How often [c] occurs in [s]. *)
Fixpoint count_char (c : ascii) (s : string) : nat :=
  match s with
  | EmptyString => 0%nat
  | String c' s' => ((if Ascii.eqb c' c then 1 else 0) + count_char c s')%nat
  end.

(** Every character of [s] is below 128. *)
Fixpoint is_ascii (s : string) : bool :=
  match s with
  | EmptyString => true
  | String c s' => (N_of_ascii c <? 128)%N && is_ascii s'
  end.

(** The state [loop_body] leaves when it has read the dictionary [d] of the
    file of key [k] and recorded it. *)
Definition recorded (w : notebook) (k : string) (d : gmap string pyval) : notebook :=
  {| tif_files := tif_files w ++ [k];
     tif_files_done := tif_files_done w ++ [k];
     inventory := to_csv (inventory w) {| index := k; row := small_d d |};
     metadata := <[metadata_filename k := d]> (metadata w);
     downloads := downloads w ++ [k] |}.

(** Two files of one name in two folders of the bucket, with the widths the
    inventory of the notebook shows for them. *)
Definition file_027 : s3_object :=
  {| key := "Holco_scan027/Fused.tif";
     content := Tiff [[{| name := "image_width"; value := TInt 1264 |}]] |}.

Definition file_029 : s3_object :=
  {| key := "Holco_scan029/Fused.tif";
     content := Tiff [[{| name := "image_width"; value := TInt 1480 |}]] |}.

(** The inventory file and [tif_files_done] agree: a key has one row when
    it is in the list and none when it is not. *)
Definition rows_match_done (w : notebook) : Prop :=
  ∀ k, length (rows_of k (inventory w))
       = if bool_decide (k ∈ tif_files_done w) then 1%nat else 0%nat.

(** A step on the dictionary that stores the same fields whatever the
    dictionary holds, or raises whatever it holds. *)
Definition stores_alike (step : gmap string pyval → result (gmap string pyval)) : Prop :=
  ∃ fields : result (gmap string pyval), ∀ d, step d = (new ← fields; Ok (new ∪ d)).

(** * Properties *)

(** ** The Python primitives on examples *)

Example py_int_ex1 : py_int "10" = Ok 10.
Proof. reflexivity. Qed.
Example py_int_ex2 : py_int " -1_000 " = Ok (-1000).
Proof. reflexivity. Qed.
Example py_int_ex3 : py_int "1__0" = Raise ValueError_int.
Proof. reflexivity. Qed.
Example py_int_ex4 : py_int "3.5" = Raise ValueError_int.
Proof. reflexivity. Qed.
Example py_int_ex5 : py_int EmptyString = Raise ValueError_int.
Proof. reflexivity. Qed.
Example split_ex1 : split_on "=" "a=b=c" = ["a"; "b"; "c"].
Proof. reflexivity. Qed.
Example split_ex2 : split_on "=" EmptyString = [EmptyString].
Proof. reflexivity. Qed.
Example split_ex3 : split_on "=" "a=" = ["a"; EmptyString].
Proof. reflexivity. Qed.
Example py_float_ex1 : py_float (2 ^ 1024) = Raise OverflowError.
Proof. reflexivity. Qed.
Example contains_ex : contains "Lepto_fovea" "x/Lepto_fovea_1/a.tif" = true.
Proof. reflexivity. Qed.
Example endswith_ex : endswith "a.tif" "tif" = true /\ endswith "a.tiff" "tif" = false.
Proof. split; reflexivity. Qed.
Example py_str_ex1 : py_str (TInt (-12)) = "-12".
Proof. reflexivity. Qed.
Example py_str_ex2 : py_str (TTuple [1; 2; 3]) = "(1, 2, 3)" /\ py_str (TTuple [7]) = "(7,)" /\ py_str (TTuple []) = "()".
Proof. repeat split; reflexivity. Qed.
Example py_str_ex3 : py_str (TBytes (list_byte_of_string "ImageJ")) = "b'ImageJ'".
Proof. reflexivity. Qed.
Example py_str_ex4 :
  py_str (TBytes (list_byte_of_string (String LF (String "255" (String "a" (String backslash "b"))))))
  = String "b" (String "'" (String backslash (String "n" (String backslash (String "x" (String "f" (String "f"
      (String "a" (String backslash (String backslash (String "b" "'"))))))))))).
Proof. reflexivity. Qed.
Example py_str_ex5 :
  py_str (TBytes (list_byte_of_string "it's")) = String "b" (String double_quote ("it's" +:+ String double_quote EmptyString)).
Proof. reflexivity. Qed.

(** ** The error monad *)

Lemma foldM_app {A B} (f : B → A → result B) (b : B) (l1 l2 : list A) :
  foldM f b (l1 ++ l2) = (b' ← foldM f b l1; foldM f b' l2).
Proof.
  revert b. induction l1 as [|x l1 IH]; intros b; simpl; [done|].
  destruct (f b x) as [b'|e]; simpl; [apply IH | done].
Qed.

Lemma foldM_concat {A B} (f : B → A → result B) (b : B) (ls : list (list A)) :
  foldM (foldM f) b ls = foldM f b (concat ls).
Proof.
  revert b. induction ls as [|l ls IH]; intros b; simpl; [done|].
  rewrite foldM_app. destruct (foldM f b l); simpl; [apply IH | done].
Qed.

(** A loop raises when one of its turns raises whatever the state is. *)
Lemma foldM_raises {A B} (f : B → A → result B) (x : A) (l : list A) :
  (∀ b, ∃ e, f b x = Raise e) → x ∈ l → ∀ b, ∃ e, foldM f b l = Raise e.
Proof.
  intros Hx Hin. induction Hin as [x l|x y l Hin IH]; intros b; simpl.
  - destruct (Hx b) as [e ->]. simpl. by exists e.
  - destruct (f b y) as [b'|e]; simpl; [by apply IH | by exists e].
Qed.

(** ** Strings *)

Lemma ascii_eqb_true (a b : ascii) : Ascii.eqb a b = true ↔ a = b.
Proof. apply Ascii.eqb_eq. Qed.

Lemma split_on_not_nil sep s : split_on sep s ≠ [].
Proof.
  destruct s as [|c s]; simpl; [done|].
  destruct (Ascii.eqb c sep); [done|]. by destruct (split_on sep s).
Qed.

Lemma split_on_app sep t f :
  split_on sep (t +:+ String sep f) = split_on sep t ++ split_on sep f.
Proof.
  induction t as [|c t IH]; simpl.
  - by rewrite Ascii.eqb_refl.
  - destruct (Ascii.eqb c sep); [by rewrite IH|].
    rewrite IH. destruct (split_on sep t) eqn:E; [by apply split_on_not_nil in E|done].
Qed.

Lemma split_on_no_sep sep s : mem_char sep s = false → split_on sep s = [s].
Proof.
  induction s as [|c s IH]; simpl; [done|].
  intros [Hc Hs]%orb_false_iff. rewrite Hc, (IH Hs). done.
Qed.

Lemma split_on_one sep k v :
  mem_char sep k = false → mem_char sep v = false →
  split_on sep (k +:+ String sep v) = [k; v].
Proof.
  intros Hk Hv. by rewrite split_on_app, !split_on_no_sep.
Qed.

Lemma removelast_snoc {A} (l : list A) (x : A) : removelast (l ++ [x]) = l.
Proof. apply removelast_last. Qed.

Lemma app_String c p t : String c p +:+ t = String c (p +:+ t).
Proof. reflexivity. Qed.
Lemma app_Empty t : EmptyString +:+ t = t.
Proof. reflexivity. Qed.

Lemma prefix_spec p s : String.prefix p s = true ↔ ∃ t, s = p +:+ t.
Proof.
  revert s. induction p as [|c p IH]; intros [|c' s]; simpl.
  - split; [by exists EmptyString|done].
  - split; [by eexists|done].
  - split; [done|by intros [t ?]].
  - setoid_rewrite app_String. destruct (ascii_dec c c') as [->|Hne].
    + rewrite IH. split; intros [t Ht]; exists t; congruence.
    + split; [done | intros [t Ht]; congruence].
Qed.

Lemma contains_spec sub s :
  contains sub s = true ↔ ∃ pre post, s = pre +:+ sub +:+ post.
Proof.
  induction s as [|c s IH]; cbn [contains].
  - rewrite orb_false_r, prefix_spec. split.
    + intros [t Ht]. by exists EmptyString, t.
    + intros [[|c pre] [post H]]; [by exists post | by rewrite app_String in H].
  - rewrite orb_true_iff, prefix_spec, IH. split.
    + intros [[t Ht]|[pre [post H]]]; [by exists EmptyString, t|].
      exists (String c pre), post. by rewrite app_String, H.
    + intros [[|c' pre] [post H]].
      * left. by exists post.
      * right. exists pre, post. rewrite app_String in H. congruence.
Qed.

Lemma endswith_spec s suffix :
  endswith s suffix = true ↔ ∃ pre, s = pre +:+ suffix.
Proof.
  induction s as [|c s IH]; cbn [endswith].
  - rewrite orb_false_r, String.eqb_eq. split.
    + intros <-. by exists EmptyString.
    + intros [[|c pre] H]; [done | by rewrite app_String in H].
  - rewrite orb_true_iff, String.eqb_eq, IH. split.
    + intros [<-|[pre ->]]; [by exists EmptyString | by exists (String c pre)].
    + intros [[|c' pre] H].
      * by left.
      * right. exists pre. rewrite app_String in H. congruence.
Qed.

(** ** The description of an image *)

Lemma store_item_field d k v :
  mem_char "=" k = false → mem_char "=" v = false →
  store_item d (k +:+ String "=" v) = (x ← convert k v; Ok (<[k := x]> d)).
Proof.
  intros Hk Hv. unfold store_item. by rewrite split_on_one.
Qed.

Lemma store_item_no_sep d item :
  mem_char "=" item = false → store_item d item = Raise ValueError_unpack.
Proof.
  intros H. unfold store_item. by rewrite split_on_no_sep.
Qed.

(** The last segment of the text goes, whatever it holds. *)
Lemma description_items_drop_last v text final :
  decode v = Ok (text +:+ String LF final) → mem_char LF final = false →
  description_items v = Ok (split_on LF text).
Proof.
  intros Hv Hf. unfold description_items. rewrite Hv. simpl.
  by rewrite split_on_app, (split_on_no_sep _ final), removelast_snoc.
Qed.

(** C3. A line [hyperstack=value] of the description with a value that is
    not the empty string stores [True] under [hyperstack], whatever the value
    says: [bool(value)] of a string that is not empty. *)
Theorem hyperstack_truthy (d : gmap string pyval) (value : string) :
  value ≠ EmptyString → mem_char "=" value = false →
  convert "hyperstack" value = Ok (VBool true) ∧
  store_item d ("hyperstack=" +:+ value) = Ok (<["hyperstack" := VBool true]> d).
Proof.
  intros Hne Hsep.
  assert (convert "hyperstack" value = Ok (VBool true)) as Hc.
  { destruct value; [done|]. reflexivity. }
  split; [done|].
  change ("hyperstack=" +:+ value) with ("hyperstack" +:+ String "=" value).
  rewrite store_item_field by done. by rewrite Hc.
Qed.

(** The value [False] is a true one. *)
Lemma hyperstack_False_is_true :
  convert "hyperstack" "False" = Ok (VBool true) ∧
  store_item ∅ "hyperstack=False" = Ok (<["hyperstack" := VBool true]> ∅).
Proof. apply (hyperstack_truthy ∅ "False"); [discriminate | reflexivity]. Defined.

(** The empty value is the one false value. *)
Example hyperstack_empty : store_item ∅ "hyperstack=" = Ok (<["hyperstack" := VBool false]> ∅).
Proof. reflexivity. Qed.
(** C5. The description [images=3\nchannels=2\nslices=10\n] becomes the three
    integer fields, the empty segment after its last line feed dropped. In
    general the text is split at the line feeds and the last segment is
    dropped whatever it holds, and a line of one of the keys [images],
    [channels], [slices] stores [int(value)]. *)
Theorem description_expands :
  read_metadata [[description (unlines ["images=3"; "channels=2"; "slices=10"])]]
    = Ok (<["slices" := VInt 10]> (<["channels" := VInt 2]> (<["images" := VInt 3]> ∅)))
  ∧ description_items (value (description (unlines ["images=3"; "channels=2"; "slices=10"])))
    = Ok ["images=3"; "channels=2"; "slices=10"]
  ∧ (∀ v text final,
       decode v = Ok (text +:+ String LF final) → mem_char LF final = false →
       description_items v = Ok (split_on LF text))
  ∧ (∀ d key value,
       key ∈ ["images"; "channels"; "slices"] → mem_char "=" value = false →
       store_item d (key +:+ String "=" value) = (n ← py_int value; Ok (<[key := VInt n]> d))).
Proof.
  split; [reflexivity|]. split; [reflexivity|].
  split; [apply description_items_drop_last|].
  intros d key value Hkey Hsep.
  assert (mem_char "=" key = false ∧ convert key value = (n ← py_int value; Ok (VInt n))) as [Hk Hc].
  { rewrite !elem_of_cons, elem_of_nil in Hkey.
    destruct Hkey as [->|[->|[->|[]]]]; by split. }
  rewrite store_item_field, Hc by done. by destruct (py_int value).
Qed.

(** A last segment that holds a field is dropped like an empty one. *)
Example description_last_line_lost :
  read_metadata [[description ("images=3" +:+ String LF "channels=2")]]
  = Ok (<["images" := VInt 3]> ∅).
Proof. reflexivity. Qed.

(** A counter that is no integer literal ends [read_metadata]. *)
Example description_bad_counter :
  read_metadata [[description (unlines ["images=three"])]] = Raise ValueError_int.
Proof. reflexivity. Qed.

(** ** The size *)

Lemma store_tag_strip_byte_counts d n rest f :
  py_float n = Ok f →
  store_tag d (strip_byte_counts (n :: rest))
  = Ok (<["sizeInGB" := VFloat (f / 1000000000)%float]> d).
Proof. intros Hf. unfold store_tag. simpl. by rewrite Hf. Qed.
(** ** Who writes a key last *)

Lemma store_item_frame d item d' k :
  store_item d item = Ok d' → item_key item ≠ k → d' !! k = d !! k.
Proof.
  unfold store_item, item_key.
  destruct (split_on "=" item) as [|key [|val [|? ?]]]; try done.
  simpl. destruct (convert key val) as [v|]; simpl; [|done].
  intros [= <-] Hne. by rewrite lookup_insert_ne.
Qed.

Lemma store_items_frame items d d' k :
  foldM store_item d items = Ok d' → k ∉ item_key <$> items → d' !! k = d !! k.
Proof.
  revert d. induction items as [|item items IH]; intros d; simpl.
  - by intros [= ->].
  - destruct (store_item d item) as [d1|] eqn:E; simpl; [|done].
    intros H Hk. apply not_elem_of_cons in Hk as [Hne Hk].
    rewrite (IH _ H Hk). by apply (store_item_frame _ _ _ _ E).
Qed.

Lemma store_tag_frame d tag d' k :
  store_tag d tag = Ok d' → k ∉ tag_keys tag → d' !! k = d !! k.
Proof.
  unfold store_tag, tag_keys.
  case_bool_decide; [|case_bool_decide].
  - destruct (description_items (value tag)) as [items|]; simpl; [|done].
    apply store_items_frame.
  - destruct (subscript0 (value tag)) as [n|]; simpl; [|done].
    destruct (py_float n) as [f|]; simpl; [|done].
    intros [= <-] Hk. rewrite lookup_insert_ne; [done|]. set_solver.
  - intros [= <-] Hk. rewrite lookup_insert_ne; [done|]. set_solver.
Qed.

Lemma store_tags_frame tags d d' k :
  foldM store_tag d tags = Ok d' → (∀ t, t ∈ tags → k ∉ tag_keys t) → d' !! k = d !! k.
Proof.
  revert d. induction tags as [|tag tags IH]; intros d; simpl.
  - by intros [= ->].
  - destruct (store_tag d tag) as [d1|] eqn:E; simpl; [|done].
    intros H Hk. rewrite (IH _ H); [|intros t Ht; apply Hk; by right].
    apply (store_tag_frame _ _ _ _ E), Hk. by left.
Qed.

(** What the tag at a place of the file has stored is still there at the
    end when no later tag stores under the key. *)
Lemma read_metadata_last_store tif d pre tag post k :
  read_metadata tif = Ok d → concat tif = pre ++ tag :: post →
  (∀ t, t ∈ post → k ∉ tag_keys t) →
  ∃ d0 d1, foldM store_tag ∅ pre = Ok d0 ∧ store_tag d0 tag = Ok d1 ∧ d !! k = d1 !! k.
Proof.
  unfold read_metadata. rewrite foldM_concat. intros H Htif Hpost.
  rewrite Htif, foldM_app in H.
  destruct (foldM store_tag ∅ pre) as [d0|]; simpl in H; [|done].
  destruct (store_tag d0 tag) as [d1|] eqn:E; simpl in H; [|done].
  exists d0, d1. split; [done|]. split; [done|]. by apply (store_tags_frame post).
Qed.

Lemma store_items_last its1 item its2 d d' k val :
  foldM store_item d (its1 ++ item :: its2) = Ok d' →
  split_on "=" item = [k; val] → k ∉ item_key <$> its2 →
  ∃ v, convert k val = Ok v ∧ d' !! k = Some v.
Proof.
  rewrite foldM_app. intros H Hitem Hk.
  destruct (foldM store_item d its1) as [d0|]; simpl in H; [|done].
  assert (store_item d0 item = (v ← convert k val; Ok (<[k := v]> d0))) as Hs
    by (unfold store_item; by rewrite Hitem).
  rewrite Hs in H.
  destruct (convert k val) as [v|]; simpl in H; [|done].
  exists v. split; [done|].
  rewrite (store_items_frame _ _ _ _ H Hk). apply lookup_insert_eq.
Qed.

Lemma store_tag_description d tag :
  name tag = "image_description" →
  store_tag d tag = (items ← description_items (value tag); foldM store_item d items).
Proof. intros H. unfold store_tag. by rewrite bool_decide_eq_true_2. Qed.

Lemma store_tag_other d tag :
  name tag ≠ "image_description" → name tag ≠ "strip_byte_counts" →
  store_tag d tag = Ok (<[name tag := VStr (py_str (value tag))]> d).
Proof. intros H1 H2. unfold store_tag. by rewrite !bool_decide_eq_false_2. Qed.

(** C8, as the code has it. Of a line [k=val] of a description and a tag
    named [k], the one met last gives the value of [k]: pages in order, the
    tags of a page in order, the lines of a description in order. The field
    of the description is the value when no later line or tag stores under
    [k]; the tag's [str(tag.value)] is the value when no later tag does. *)
Theorem last_store_wins (tif : list TiffPage) (d : gmap string pyval)
    (pre post : list TiffTag) (tag : TiffTag) (k : string) :
  read_metadata tif = Ok d → concat tif = pre ++ tag :: post →
  (∀ t, t ∈ post → k ∉ tag_keys t) →
  (name tag = "image_description" →
   ∀ its1 item its2 val,
     description_items (value tag) = Ok (its1 ++ item :: its2) →
     split_on "=" item = [k; val] → k ∉ item_key <$> its2 →
     ∃ v, convert k val = Ok v ∧ d !! k = Some v)
  ∧ (name tag = k → k ≠ "image_description" → k ≠ "strip_byte_counts" →
     d !! k = Some (VStr (py_str (value tag)))).
Proof.
  intros Hd Htif Hpost.
  destruct (read_metadata_last_store _ _ _ _ _ _ Hd Htif Hpost) as (d0 & d1 & _ & Htag & ->).
  split.
  - intros Hname its1 item its2 val Hitems Hitem Hk.
    rewrite store_tag_description, Hitems in Htag by done. simpl in Htag.
    by apply (store_items_last its1 item its2 d0).
  - intros <- H1 H2. rewrite store_tag_other in Htag by done.
    injection Htag as <-. apply lookup_insert_eq.
Qed.
Lemma last_store_wins_witness :
  (∃ d, read_metadata tif_tag_last = Ok d ∧ d !! "orientation" = Some (VStr "1"))
  ∧ (∃ d v, read_metadata tif_description_last = Ok d
            ∧ convert "orientation" "7" = Ok v ∧ d !! "orientation" = Some v).
Proof.
  split.
  - exists (<["orientation" := VStr "1"]> (<["orientation" := VStr "7"]> ∅)).
    split; [reflexivity|].
    refine (proj2 (last_store_wins tif_tag_last _
              [description (unlines ["orientation=7"])] []
              {| name := "orientation"; value := TInt 1 |} "orientation" _ _ _) _ _ _).
    + reflexivity.
    + reflexivity.
    + intros t Ht. by apply elem_of_nil in Ht.
    + reflexivity.
    + discriminate.
    + discriminate.
  - exists (<["orientation" := VStr "7"]> (<["orientation" := VStr "1"]> ∅)).
    assert (read_metadata tif_description_last
            = Ok (<["orientation" := VStr "7"]> (<["orientation" := VStr "1"]> ∅))) as Hd
      by reflexivity.
    destruct (last_store_wins tif_description_last _
                [{| name := "orientation"; value := TInt 1 |}] []
                (description (unlines ["orientation=7"])) "orientation" Hd eq_refl) as [Hdesc _].
    { intros t Ht. by apply elem_of_nil in Ht. }
    destruct (Hdesc eq_refl [] "orientation=7" [] "7" eq_refl eq_refl) as [v Hv].
    { apply not_elem_of_nil. }
    by exists v.
Defined.

(** C8, as the spec has it, fails on [tif_tag_last]: the description holds
    [orientation=7], the tag [orientation] comes after it, and the
    dictionary ends with the tag's value. *)
Lemma tag_after_description_wins :
  description_items (value (description (unlines ["orientation=7"]))) = Ok ["orientation=7"]
  ∧ convert "orientation" "7" = Ok (VStr "7")
  ∧ ∃ d, read_metadata tif_tag_last = Ok d ∧ d !! "orientation" = Some (VStr "1").
Proof.
  split; [reflexivity|]. split; [reflexivity|].
  exists (<["orientation" := VStr "1"]> (<["orientation" := VStr "7"]> ∅)).
  split; [reflexivity | apply lookup_insert_eq].
Qed.

(** C6. The tag [strip_byte_counts] stores [float(tag.value[0]) / 1000000000.]
    under [sizeInGB], and the dictionary of the file holds it when no later
    tag stores under that key. *)
Theorem sizeInGB_decimal (d0 : gmap string pyval) (tif : list TiffPage) (d : gmap string pyval)
    (pre post : list TiffTag) (n : Z) (rest : list Z) (f : float) :
  py_float n = Ok f →
  store_tag d0 (strip_byte_counts (n :: rest))
    = Ok (<["sizeInGB" := VFloat (f / 1000000000)%float]> d0)
  ∧ (read_metadata tif = Ok d →
     concat tif = pre ++ strip_byte_counts (n :: rest) :: post →
     (∀ t, t ∈ post → "sizeInGB" ∉ tag_keys t) →
     d !! "sizeInGB" = Some (VFloat (f / 1000000000)%float)).
Proof.
  intros Hf. split; [by apply store_tag_strip_byte_counts|].
  intros Hd Htif Hpost.
  destruct (read_metadata_last_store _ _ _ _ _ _ Hd Htif Hpost) as (d1 & d2 & _ & Htag & ->).
  rewrite (store_tag_strip_byte_counts _ _ _ _ Hf) in Htag.
  injection Htag as <-. apply lookup_insert_eq.
Qed.

(** A decimal such as [1.159201] stands for the binary64 float next to it,
    here as in Python. *)
Set Warnings "-inexact-float".

(** 1,159,201,000 bytes are 1.159201 GB: the divisor is ten to the ninth,
    not two to the thirtieth. *)
Lemma sizeInGB_1159201000 :
  py_float 1159201000 = Ok 1159201000%float
  ∧ store_tag ∅ (strip_byte_counts [1159201000]) = Ok (<["sizeInGB" := VFloat 1.159201]> ∅)
  ∧ ∃ d, read_metadata [[strip_byte_counts [1159201000]]] = Ok d
         ∧ d !! "sizeInGB" = Some (VFloat 1.159201).
Proof.
  split; [reflexivity|].
  assert (read_metadata [[strip_byte_counts [1159201000]]]
          = Ok (<["sizeInGB" := VFloat 1.159201]> ∅)) as Hd by reflexivity.
  destruct (sizeInGB_decimal ∅ [[strip_byte_counts [1159201000]]]
              (<["sizeInGB" := VFloat 1.159201]> ∅) [] []
              1159201000 [] 1159201000%float eq_refl) as [Htag Hfile].
  split; [exact Htag|].
  eexists. split; [exact Hd|].
  apply (Hfile Hd eq_refl). intros t Ht. by apply elem_of_nil in Ht.
Defined.
Lemma foldM_replace {A B} (f : B → A → result B) (x y : A) (l1 l2 : list A) (b : B) :
  (∀ b, f b x = f b y) → foldM f b (l1 ++ x :: l2) = foldM f b (l1 ++ y :: l2).
Proof.
  intros Hxy. rewrite !foldM_app.
  destruct (foldM f b l1) as [b1|]; simpl; [|done]. by rewrite Hxy.
Qed.

(** C10. Of a [strip_byte_counts] of several counts only the first is
    read: [tag.value[0]] is the first count [n], and the tag stores
    [float(n) / 1000000000.] under [sizeInGB] whatever the counts after it
    are; the dictionary of the file holds that value when no later tag
    stores under the key. The counts after the first change nothing of what
    [read_metadata] returns, so a file of several strips is given the size
    of its first strip, not the sum of its strips. *)
Theorem sizeInGB_first_strip_only (pages1 pages2 : list TiffPage) (pre post : list TiffTag)
    (n : Z) (rest : list Z) :
  subscript0 (value (strip_byte_counts (n :: rest))) = Ok n
  ∧ (∀ d, store_tag d (strip_byte_counts (n :: rest))
          = (f ← py_float n; Ok (<["sizeInGB" := VFloat (f / 1000000000)%float]> d)))
  ∧ (∀ d, read_metadata (pages1 ++ (pre ++ strip_byte_counts (n :: rest) :: post) :: pages2)
          = Ok d →
          (∀ t, t ∈ post ++ concat pages2 → "sizeInGB" ∉ tag_keys t) →
          ∃ f, py_float n = Ok f
               ∧ d !! "sizeInGB" = Some (VFloat (f / 1000000000)%float))
  ∧ read_metadata (pages1 ++ (pre ++ strip_byte_counts (n :: rest) :: post) :: pages2)
    = read_metadata (pages1 ++ (pre ++ strip_byte_counts [n] :: post) :: pages2)
  ∧ (∀ d, store_tag d (strip_byte_counts (n :: rest)) = store_tag d (strip_byte_counts [n]))
  ∧ read_metadata [[strip_byte_counts [1000000000; 1000000000]]]
    = Ok (<["sizeInGB" := VFloat 1]> ∅)
  ∧ read_metadata [[strip_byte_counts [1159201000; 1000000000; 7]]]
    = Ok (<["sizeInGB" := VFloat 1.159201]> ∅).
Proof.
  assert (∀ d, store_tag d (strip_byte_counts (n :: rest)) = store_tag d (strip_byte_counts [n]))
    as Htag by done.
  assert (∀ t : TiffTag, concat (pages1 ++ (pre ++ t :: post) :: pages2)
                         = (concat pages1 ++ pre) ++ t :: (post ++ concat pages2)) as E
    by (intros t; by rewrite concat_app, concat_cons, <- !app_assoc).
  split; [reflexivity|]. split; [reflexivity|]. split.
  { intros d Hd Hpost.
    destruct (read_metadata_last_store _ _ _ _ _ "sizeInGB" Hd (E _) Hpost)
      as (d0 & d1 & _ & Hstore & ->).
    destruct (py_float n) as [f|e] eqn:Hf.
    - exists f. split; [done|].
      rewrite (store_tag_strip_byte_counts _ _ _ _ Hf) in Hstore.
      injection Hstore as <-. apply lookup_insert_eq.
    - exfalso. revert Hstore. unfold store_tag. cbn. by rewrite Hf. }
  split; [|split; [done | split; reflexivity]].
  unfold read_metadata. rewrite !foldM_concat, !E. by apply foldM_replace.
Qed.

(** A file of three strips: the record holds the first count over ten to
    the ninth. *)
Lemma sizeInGB_first_of_three_strips :
  ∃ d f, read_metadata [[strip_byte_counts [1159201000; 1000000000; 7]]] = Ok d
         ∧ py_float 1159201000 = Ok f
         ∧ d !! "sizeInGB" = Some (VFloat (f / 1000000000)%float).
Proof.
  assert (read_metadata [[strip_byte_counts [1159201000; 1000000000; 7]]]
          = Ok (<["sizeInGB" := VFloat 1.159201]> ∅)) as Hd by reflexivity.
  destruct (sizeInGB_first_strip_only [] [] [] [] 1159201000 [1000000000; 7])
    as (_ & _ & Hfile & _).
  destruct (Hfile _ Hd) as (f & Hf & Hlook).
  { intros t Ht. by apply elem_of_nil in Ht. }
  by exists (<["sizeInGB" := VFloat 1.159201]> ∅), f.
Defined.

(** ** The reduced row *)

Lemma small_d_fold (d : gmap string pyval) (keys : list string) (small : gmap string pyval) k :
  fold_left
    (fun small key =>
       match d !! key with
       | Some v => <[key := v]> small
       | None => <[key := VNone]> small
       end) keys small !! k
  = if bool_decide (k ∈ keys) then Some (default VNone (d !! k)) else small !! k.
Proof.
  revert small. induction keys as [|key keys IH]; intros small; simpl; [done|].
  rewrite IH. case_bool_decide as Hk.
  - rewrite bool_decide_eq_true_2; [done | by right].
  - destruct (decide (k = key)) as [->|Hne].
    + rewrite bool_decide_eq_true_2 by by left.
      destruct (d !! key); simpl; by rewrite lookup_insert_eq.
    + rewrite bool_decide_eq_false_2 by (by intros [?|?]%elem_of_cons).
      destruct (d !! key); by rewrite lookup_insert_ne.
Qed.

Lemma small_d_lookup d k :
  small_d d !! k = if bool_decide (k ∈ reduced_keys) then Some (default VNone (d !! k)) else None.
Proof. unfold small_d. by rewrite small_d_fold, lookup_empty. Qed.

Lemma small_d_dom d : dom (small_d d) = list_to_set reduced_keys.
Proof.
  apply set_eq. intros k. rewrite elem_of_dom, small_d_lookup, elem_of_list_to_set.
  case_bool_decide.
  - split; [done | by eauto].
  - split; [by intros [? ?] | done].
Qed.

Lemma size_reduced_keys : size (list_to_set reduced_keys : gset string) = 6%nat.
Proof.
  rewrite size_list_to_set; [done|]. unfold reduced_keys.
  repeat (apply NoDup_cons; split;
          [rewrite ?elem_of_cons, elem_of_nil; intros H; repeat destruct H as [H|H]; done|]).
  apply NoDup_nil_2.
Qed.

(** C4. Whatever [read_metadata] returns, the row [process_tif] makes of it
    has the six columns and no other, each with the value of the dictionary
    or [None] where the dictionary has none; making the row raises nothing
    and writes nothing: the one file [process_tif] writes is the dump of the
    whole dictionary before it. *)
Theorem reduced_row_six_fields (files : gmap string (gmap string pyval)) (tif : list TiffPage)
    (label : string) (d : gmap string pyval) :
  read_metadata tif = Ok d →
  process_tif files tif label
    = Ok (<[metadata_filename label := d]> files, {| index := label; row := small_d d |})
  ∧ dom (small_d d) = list_to_set reduced_keys
  ∧ size (small_d d) = 6%nat
  ∧ ∀ k, k ∈ reduced_keys → small_d d !! k = Some (default VNone (d !! k)).
Proof.
  intros Hd. split; [unfold process_tif; by rewrite Hd|].
  split; [apply small_d_dom|]. split.
  - rewrite <- size_dom, small_d_dom. by apply size_reduced_keys.
  - intros k Hk. rewrite small_d_lookup. by rewrite bool_decide_eq_true_2.
Qed.
Lemma reduced_row_example :
  ∃ d, read_metadata tif_two_fields = Ok d
       ∧ small_d d !! "image_width" = Some (VStr "512")
       ∧ small_d d !! "channels" = Some (VInt 2)
       ∧ small_d d !! "slices" = Some VNone
       ∧ size (small_d d) = 6%nat.
Proof.
  exists (<["channels" := VInt 2]> (<["image_width" := VStr "512"]> ∅)).
  assert (read_metadata tif_two_fields
          = Ok (<["channels" := VInt 2]> (<["image_width" := VStr "512"]> ∅))) as Hd
    by reflexivity.
  destruct (reduced_row_six_fields ∅ tif_two_fields "Scan050/a.tif" _ Hd)
    as (_ & _ & Hsize & Hk).
  split; [exact Hd|].
  rewrite !Hk by (unfold reduced_keys; repeat first [apply list_elem_of_here | apply list_elem_of_further]).
  rewrite lookup_insert_ne, lookup_insert_eq by done.
  rewrite lookup_insert_eq.
  rewrite !lookup_insert_ne, lookup_empty by done.
  split; [reflexivity|]. split; [reflexivity|]. split; [reflexivity|]. exact Hsize.
Defined.

(** ** The name of the metadata file *)

Lemma mem_char_app c s t : mem_char c (s +:+ t) = mem_char c s || mem_char c t.
Proof.
  induction s as [|a s IH]; [done|].
  rewrite app_String. cbn [mem_char]. by rewrite IH, orb_assoc.
Qed.

Lemma app_assoc_s (s t u : string) : (s +:+ t) +:+ u = s +:+ (t +:+ u).
Proof. induction s as [|a s IH]; [done|]. by rewrite !app_String, IH. Qed.

Lemma app_Empty_r (s : string) : s +:+ EmptyString = s.
Proof. induction s as [|a s IH]; [done|]. by rewrite app_String, IH. Qed.

Lemma split_on_parts sep s : Forall (fun p => mem_char sep p = false) (split_on sep s).
Proof.
  induction s as [|c s IH]; simpl; [by repeat constructor|].
  destruct (Ascii.eqb c sep) eqn:Ec; [by constructor|].
  destruct (split_on sep s) as [|p ps]; [by repeat constructor; simpl; rewrite Ec|].
  inversion_clear IH. constructor; [|done]. simpl. by rewrite Ec.
Qed.

Lemma join_cons sep x y l : join sep (x :: y :: l) = x +:+ sep +:+ join sep (y :: l).
Proof. done. Qed.

Lemma join_split_on sep s : join (String sep EmptyString) (split_on sep s) = s.
Proof.
  induction s as [|c s IH]; [done|]. simpl.
  destruct (Ascii.eqb c sep) eqn:Ec.
  - apply Ascii.eqb_eq in Ec as ->.
    destruct (split_on sep s) as [|p ps] eqn:E; [by apply split_on_not_nil in E|].
    rewrite join_cons, IH. done.
  - destruct (split_on sep s) as [|p [|q ps]] eqn:E; [by apply split_on_not_nil in E| |].
    + simpl in *. by rewrite IH.
    + rewrite join_cons in *. by rewrite app_String, IH.
Qed.

Lemma join_snoc sep l x y :
  join sep ((x :: l) ++ [y]) = join sep (x :: l) +:+ sep +:+ y.
Proof.
  revert x. induction l as [|z l IH]; intros x; [done|].
  change ((x :: z :: l) ++ [y]) with (x :: ((z :: l) ++ [y])).
  change ((z :: l) ++ [y]) with (z :: (l ++ [y])) at 1.
  rewrite join_cons. change (z :: (l ++ [y])) with ((z :: l) ++ [y]).
  rewrite IH, join_cons. by rewrite !app_assoc_s.
Qed.

(** The last part of a split has no separator and ends the string. *)
Lemma split_on_last sep s :
  mem_char sep (item_last (split_on sep s)) = false
  ∧ (s = item_last (split_on sep s)
     ∨ ∃ dir, s = dir +:+ String sep (item_last (split_on sep s))).
Proof.
  pose proof (split_on_parts sep s) as Hparts.
  pose proof (join_split_on sep s) as Hjoin.
  pose proof (split_on_not_nil sep s) as Hnil.
  destruct (split_on sep s) as [|p ps _] using rev_ind; [done|].
  unfold item_last. rewrite last_snoc. simpl.
  apply Forall_app in Hparts as [_ Hp]. inversion_clear Hp as [|? ? Hpp _].
  split; [done|].
  destruct ps as [|q ps]; [left; simpl in Hjoin; by subst|].
  right. rewrite join_snoc in Hjoin. eexists. rewrite <- Hjoin. reflexivity.
Qed.

(** The first part of a split has no separator and starts the string. *)
Lemma split_on_first sep s :
  mem_char sep (item_0 (split_on sep s)) = false
  ∧ (s = item_0 (split_on sep s)
     ∨ ∃ ext, s = item_0 (split_on sep s) +:+ String sep ext).
Proof.
  pose proof (split_on_parts sep s) as Hparts.
  pose proof (join_split_on sep s) as Hjoin.
  pose proof (split_on_not_nil sep s) as Hnil.
  destruct (split_on sep s) as [|p [|q ps]]; [done| |].
  - inversion_clear Hparts. split; [done|]. left. simpl in Hjoin. by subst.
  - inversion_clear Hparts. split; [done|]. right. rewrite join_cons in Hjoin.
    eexists. rewrite <- Hjoin. reflexivity.
Qed.
Lemma os_path_join_METADATA stem :
  mem_char "/" stem = false →
  os_path_join METADATA (stem +:+ "_metadata.txt") = "data/metadata/" +:+ stem +:+ "_metadata.txt".
Proof.
  intros Hstem. unfold os_path_join.
  assert (String.prefix "/" (stem +:+ "_metadata.txt") = false) as ->.
  { destruct stem as [|c stem]; [reflexivity|]. rewrite app_String.
    cbn [mem_char] in Hstem. apply orb_false_iff in Hstem as [Hc _].
    cbn [String.prefix]. destruct (ascii_dec "/" c) as [<-|]; [done|].
    by destruct (stem +:+ "_metadata.txt"). }
  reflexivity.
Qed.

Lemma strip_extension_one_dot stem ext :
  mem_char "." stem = false → mem_char "." ext = false →
  strip_extension (stem +:+ String "." ext) = stem.
Proof. intros Hs He. unfold strip_extension. by rewrite split_on_one. Qed.

Lemma strip_extension_no_dot s : mem_char "." s = false → strip_extension s = s.
Proof. intros Hs. unfold strip_extension. by rewrite split_on_no_sep. Qed.

(** C9, as the code has it. The metadata file of a label is named after the
    last segment of the label's path cut at its first dot (not at its last
    one), with [_metadata.txt] appended, in the directory [data/metadata];
    where the segment has one dot or none this is the name the spec's words
    give. When [read_metadata] returns, [process_tif] writes the whole
    dictionary under that name and touches no other file. *)
Theorem metadata_filename_first_dot (files : gmap string (gmap string pyval))
    (tif : list TiffPage) (label : string) (d : gmap string pyval) :
  read_metadata tif = Ok d →
  (∃ seg stem,
     metadata_filename label = "data/metadata/" +:+ stem +:+ "_metadata.txt"
     ∧ mem_char "/" seg = false
     ∧ (label = seg ∨ ∃ dir, label = dir +:+ String "/" seg)
     ∧ mem_char "." stem = false
     ∧ (seg = stem ∨ ∃ ext, seg = stem +:+ String "." ext)
     ∧ (∀ ext, seg = stem +:+ String "." ext → mem_char "." ext = false →
        metadata_filename label = entry_name_by_extension label)
     ∧ (seg = stem → metadata_filename label = entry_name_by_extension label))
  ∧ ∃ files' df,
      process_tif files tif label = Ok (files', df)
      ∧ files' !! metadata_filename label = Some d
      ∧ ∀ other, other ≠ metadata_filename label → files' !! other = files !! other.
Proof.
  intros Hd. split.
  - exists (item_last (split_on "/" label)), (item_0 (split_on "." (item_last (split_on "/" label)))).
    destruct (split_on_last "/" label) as [Hseg Hlabel].
    destruct (split_on_first "." (item_last (split_on "/" label))) as [Hstem Hsplit].
    set (seg := item_last (split_on "/" label)) in *.
    set (stem := item_0 (split_on "." seg)) in *.
    assert (mem_char "/" stem = false) as Hslash.
    { destruct Hsplit as [E|[ext E]]; [by rewrite <- E|].
      rewrite E, mem_char_app in Hseg. by apply orb_false_iff in Hseg as [? _]. }
    split; [by apply os_path_join_METADATA|].
    do 4 (split; [done|]).
    unfold metadata_filename, entry_name_by_extension. fold seg. fold stem.
    split.
    + intros ext E Hext.
      assert (strip_extension seg = stem) as ->; [|done].
      rewrite E. by apply strip_extension_one_dot.
    + intros E.
      assert (strip_extension seg = stem) as ->; [|done].
      rewrite E. by apply strip_extension_no_dot.
  - unfold process_tif. rewrite Hd. simpl. eexists _, _. split; [done|].
    split; [apply lookup_insert_eq|]. intros other Hne. by rewrite lookup_insert_ne.
Qed.

Lemma metadata_filename_example :
  metadata_filename "Scan050/Fused_ZSeries-11062016-1603-050.tif"
    = "data/metadata/Fused_ZSeries-11062016-1603-050_metadata.txt"
  ∧ ∃ files' df,
      process_tif ∅ tif_two_fields "Scan050/Fused_ZSeries-11062016-1603-050.tif" = Ok (files', df)
      ∧ files' !! metadata_filename "Scan050/Fused_ZSeries-11062016-1603-050.tif"
        = Some (<["channels" := VInt 2]> (<["image_width" := VStr "512"]> ∅)).
Proof.
  split; [reflexivity|].
  destruct (metadata_filename_first_dot ∅ tif_two_fields
              "Scan050/Fused_ZSeries-11062016-1603-050.tif"
              (<["channels" := VInt 2]> (<["image_width" := VStr "512"]> ∅))
              eq_refl) as [_ (files' & df & Hp & Hf & _)].
  by exists files', df.
Defined.

(** C9, as the spec has it, fails on a name of two dots: the code cuts it at
    the first dot, the extension starts at the last. *)
Lemma metadata_filename_two_dots :
  metadata_filename "Scan050/a.b.tif" = "data/metadata/a_metadata.txt"
  ∧ entry_name_by_extension "Scan050/a.b.tif" = "data/metadata/a.b_metadata.txt".
Proof. split; reflexivity. Qed.

(** Two labels of one file name in two folders share their metadata file:
    the second dump replaces the first. *)
Example metadata_filename_collision :
  metadata_filename "Holco_scan027/Fused.tif" = metadata_filename "Holco_scan029/Fused.tif".
Proof. reflexivity. Qed.
(** ** The batch loop *)

Lemma exclude_flag (k : string) (names : list string) (b : bool) :
  fold_left (fun exclude name => if contains name k then true else exclude) names b
  = b || existsb (fun name => contains name k) names.
Proof.
  revert b. induction names as [|name names IH]; intros b; simpl; [by rewrite orb_false_r|].
  rewrite IH. by destruct (contains name k), b.
Qed.

Lemma loop_body_unfold w file :
  loop_body w file =
  if wanted (key file) then
    if bool_decide (key file ∈ tif_files_done w) then
      ({| tif_files := tif_files w ++ [key file]; tif_files_done := tif_files_done w;
          inventory := inventory w; metadata := metadata w; downloads := downloads w |}, None)
    else
      match content file with
      | Unreachable => (staged w (key file), Some ClientError)
      | NotTiff => (staged w (key file), Some ValueError_tiff)
      | Tiff pages =>
          match process_tif (metadata w) pages (key file) with
          | Raise e => (staged w (key file), Some e)
          | Ok (files, df) =>
              ({| tif_files := tif_files w ++ [key file];
                  tif_files_done := tif_files_done w ++ [key file];
                  inventory := to_csv (inventory w) df;
                  metadata := files;
                  downloads := downloads w ++ [key file] |}, None)
          end
      end
  else (w, None).
Proof.
  unfold loop_body, wanted. rewrite exclude_flag, orb_false_l.
  destruct (existsb (fun name => contains name (key file)) exclude_list); [done|].
  destruct (endswith (key file) "tif"); [|done].
  cbn [negb andb tif_files_done tif_files inventory metadata downloads].
  destruct (bool_decide (key file ∈ tif_files_done w)); [done|].
  cbn [negb]. destruct (content file); [done..|].
  by destruct (process_tif (metadata w) pages (key file)) as [[files df]|].
Qed.

Lemma wanted_spec k :
  wanted k = false ↔
  (∃ name, name ∈ exclude_list ∧ ∃ pre post, k = pre +:+ name +:+ post)
  ∨ ¬ (∃ pre, k = pre +:+ "tif").
Proof.
  unfold wanted. rewrite andb_false_iff, negb_false_iff, existsb_exists.
  rewrite <- endswith_spec, not_true_iff_false.
  split; (intros [H|H]; [left|by right]).
  - destruct H as (name & Hin & Hc). exists name. by rewrite list_elem_of_In, <- contains_spec.
  - destruct H as (name & Hin & Hc). exists name. by rewrite <- list_elem_of_In, contains_spec.
Qed.

Lemma batch_loop_app w l1 l2 :
  batch_loop w (l1 ++ l2) =
  match batch_loop w l1 with
  | (w', None) => batch_loop w' l2
  | (w', Some e) => (w', Some e)
  end.
Proof.
  revert w. induction l1 as [|file l1 IH]; intros w; simpl; [done|].
  destruct (loop_body w file) as [w' [e|]]; [done | apply IH].
Qed.

(** C7. A key that holds a name of the exclude list, or that does not end
    in [tif], leaves the state as it is: nothing is fetched, nothing is
    written, nothing is appended to the two lists; the loop over a listing
    does what it does over the listing without that key. *)
Theorem filtered_key_skipped (w : notebook) (file : s3_object) :
  (∃ name, name ∈ exclude_list ∧ ∃ pre post, key file = pre +:+ name +:+ post)
  ∨ ¬ (∃ pre, key file = pre +:+ "tif") →
  loop_body w file = (w, None)
  ∧ ∀ w0 before after,
      batch_loop w0 (before ++ file :: after) = batch_loop w0 (before ++ after).
Proof.
  intros Hf%wanted_spec.
  assert (∀ w, loop_body w file = (w, None)) as Hskip
    by (intros w1; by rewrite loop_body_unfold, Hf).
  split; [done|]. intros w0 before after. rewrite !batch_loop_app.
  destruct (batch_loop w0 before) as [w1 [e|]]; [done|]. simpl. by rewrite Hskip.
Qed.

Lemma filtered_key_skipped_witness :
  loop_body (start None ∅) {| key := "Lepto_fovea/img_0001.tif"; content := Tiff tif_two_fields |}
    = (start None ∅, None)
  ∧ loop_body (start None ∅) {| key := "Scan050/notes.txt"; content := NotTiff |}
    = (start None ∅, None).
Proof.
  split.
  - apply (filtered_key_skipped (start None ∅)
             {| key := "Lepto_fovea/img_0001.tif"; content := Tiff tif_two_fields |}).
    left. exists "Lepto_fovea". split; [by left|]. by exists EmptyString, "/img_0001.tif".
  - apply (filtered_key_skipped (start None ∅)
             {| key := "Scan050/notes.txt"; content := NotTiff |}).
    right. intros H%endswith_spec. vm_compute in H. discriminate H.
Defined.
Lemma process_tif_index files tif label files' df :
  process_tif files tif label = Ok (files', df) → index df = label.
Proof.
  unfold process_tif. destruct (read_metadata tif); simpl; [|done]. by intros [= _ <-].
Qed.

Lemma rows_of_to_csv label inv df :
  index df ≠ label → rows_of label (to_csv inv df) = rows_of label inv.
Proof.
  intros Hne. destruct inv as [lines|]; simpl.
  - rewrite omap_app. simpl. rewrite bool_decide_eq_false_2 by done. by rewrite app_nil_r.
  - by rewrite bool_decide_eq_false_2.
Qed.

Lemma download_count_snoc label w k t d i m :
  k ≠ label →
  download_count label {| tif_files := t; tif_files_done := d; inventory := i;
                          metadata := m; downloads := downloads w ++ [k] |}
  = download_count label w.
Proof.
  intros Hne. unfold download_count. simpl.
  rewrite filter_app, filter_cons_False, filter_nil by done. by rewrite app_nil_r.
Qed.

(** One turn of the loop does nothing for a label of [tif_files_done]. *)
Lemma loop_body_done w file label :
  label ∈ tif_files_done w →
  download_count label (loop_body w file).1 = download_count label w
  ∧ rows_of label (inventory (loop_body w file).1) = rows_of label (inventory w)
  ∧ label ∈ tif_files_done (loop_body w file).1.
Proof.
  intros Hdone. rewrite loop_body_unfold.
  destruct (wanted (key file)); [|done].
  case_bool_decide as Hk; [done|].
  assert (key file ≠ label) as Hne by (intros E; by rewrite E in Hk).
  unfold staged.
  destruct (content file) as [| |pages]; cbn [fst inventory tif_files_done].
  - by rewrite (download_count_snoc label w).
  - by rewrite (download_count_snoc label w).
  - destruct (process_tif (metadata w) pages (key file)) as [[files df]|] eqn:E;
      cbn [fst inventory tif_files_done].
    + apply process_tif_index in E.
      rewrite (download_count_snoc label w), rows_of_to_csv by congruence.
      split; [done|]. split; [done|]. apply elem_of_app. by left.
    + by rewrite (download_count_snoc label w).
Qed.

(** C1, as the code has it. A label that is in the list [tif_files_done]
    is not fetched and gets no row, whatever the listing and whether or not
    the loop ends by an exception. The list is the only record of what is
    done: it is set to the empty list by the cell before the loop and is
    never filled from the inventory file. *)
Theorem done_label_not_processed (w : notebook) (files : list s3_object) (label : string) :
  label ∈ tif_files_done w →
  download_count label (batch_loop w files).1 = download_count label w
  ∧ rows_of label (inventory (batch_loop w files).1) = rows_of label (inventory w)
  ∧ label ∈ tif_files_done (batch_loop w files).1.
Proof.
  revert w. induction files as [|file files IH]; intros w Hdone; simpl; [done|].
  destruct (loop_body_done w file label Hdone) as (Hd & Hr & Hin).
  destruct (loop_body w file) as [w' [e|]]; simpl in *; [done|].
  destruct (IH w' Hin) as (Hd' & Hr' & Hin').
  split; [congruence|]. split; [congruence|done].
Qed.
Lemma done_label_not_processed_witness :
  tif_files_done first_run = ["Scan050/a.tif"]
  ∧ download_count "Scan050/a.tif" (batch_loop first_run [file_a]).1
    = download_count "Scan050/a.tif" first_run
  ∧ rows_of "Scan050/a.tif" (inventory (batch_loop first_run [file_a]).1)
    = rows_of "Scan050/a.tif" (inventory first_run).
Proof.
  split; [reflexivity|].
  destruct (done_label_not_processed first_run [file_a] "Scan050/a.tif") as (Hd & Hr & _).
  - change (tif_files_done first_run) with ["Scan050/a.tif"]. apply list_elem_of_here.
  - by split.
Defined.

(** C1, as the spec has it, fails on the bucket [[file_a]]: the first run
    leaves a row of [Scan050/a.tif] in the inventory file; the notebook run
    again from its first cells starts with an empty [tif_files_done], fetches
    the file again and appends a second row of it. *)
Lemma fresh_run_repeats_label :
  inventory first_run = Some [Header (dom (row row_a)); Row row_a]
  ∧ tif_files_done (start (inventory first_run) (metadata first_run)) = []
  ∧ downloads second_run = ["Scan050/a.tif"]
  ∧ inventory second_run = Some [Header (dom (row row_a)); Row row_a; Row row_a].
Proof. repeat split; reflexivity. Qed.
(** ** A description with a line without [=] *)

Lemma store_tag_bad_item d tag items item :
  name tag = "image_description" → description_items (value tag) = Ok items →
  item ∈ items → mem_char "=" item = false →
  ∃ e, store_tag d tag = Raise e.
Proof.
  intros Hname Hitems Hin Hbad. rewrite store_tag_description, Hitems by done. simpl.
  apply (foldM_raises store_item item items); [|done].
  intros b. exists ValueError_unpack. by apply store_item_no_sep.
Qed.

Lemma read_metadata_bad_item tif page tag items item :
  page ∈ tif → tag ∈ page →
  name tag = "image_description" → description_items (value tag) = Ok items →
  item ∈ items → mem_char "=" item = false →
  ∃ e, read_metadata tif = Raise e.
Proof.
  intros Hpage Htag Hname Hitems Hin Hbad. unfold read_metadata.
  apply (foldM_raises (foldM store_tag) page tif); [|done].
  intros b. apply (foldM_raises store_tag tag page); [|done].
  intros b'. by apply (store_tag_bad_item b' tag items item).
Qed.

(** The exception is the one of the unpacking when nothing before the line
    has raised. *)
Lemma read_metadata_first_bad_item tif pre tag post its1 item its2 d0 d1 :
  concat tif = pre ++ tag :: post → foldM store_tag ∅ pre = Ok d0 →
  name tag = "image_description" →
  description_items (value tag) = Ok (its1 ++ item :: its2) →
  foldM store_item d0 its1 = Ok d1 → mem_char "=" item = false →
  read_metadata tif = Raise ValueError_unpack.
Proof.
  intros Htif Hpre Hname Hitems Hits1 Hbad. unfold read_metadata.
  rewrite foldM_concat, Htif, foldM_app, Hpre. simpl.
  rewrite store_tag_description, Hitems by done. simpl.
  rewrite foldM_app, Hits1. simpl. by rewrite store_item_no_sep.
Qed.

(** C2, as the code has it. A file whose description has a kept line
    without [=] makes [read_metadata] raise (the [ValueError] of the
    unpacking when nothing before that line raises), and nothing catches it:
    the loop ends there. The file has been fetched and its key appended to
    [tif_files]; no metadata file is written, no row is appended, the key is
    not marked done, and no later key of the listing is looked at. *)
Theorem bad_description_ends_batch (w : notebook) (file : s3_object) (rest : list s3_object)
    (pages : list TiffPage) (page : TiffPage) (tag : TiffTag) (items : list string)
    (item : string) :
  wanted (key file) = true → key file ∉ tif_files_done w →
  content file = Tiff pages → page ∈ pages → tag ∈ page →
  name tag = "image_description" → description_items (value tag) = Ok items →
  item ∈ items → mem_char "=" item = false →
  ∃ e, read_metadata pages = Raise e
       ∧ batch_loop w (file :: rest) = (staged w (key file), Some e)
       ∧ (∀ pre post its1 its2 d0 d1,
            concat pages = pre ++ tag :: post → foldM store_tag ∅ pre = Ok d0 →
            items = its1 ++ item :: its2 → foldM store_item d0 its1 = Ok d1 →
            e = ValueError_unpack).
Proof.
  intros Hwanted Hdone Hcontent Hpage Htag Hname Hitems Hin Hbad.
  destruct (read_metadata_bad_item pages page tag items item) as [e He]; try done.
  exists e. split; [done|]. split.
  - simpl. rewrite loop_body_unfold, Hwanted, bool_decide_eq_false_2, Hcontent by done.
    unfold process_tif. by rewrite He.
  - intros pre post its1 its2 d0 d1 Hpages Hpre -> Hits1.
    rewrite (read_metadata_first_bad_item pages pre tag post its1 item its2 d0 d1) in He by done.
    by injection He.
Qed.

Lemma bad_description_ends_batch_witness :
  ∃ e, read_metadata [[description (unlines ["images=3"; "no separator"])]] = Raise e
       ∧ batch_loop (start None ∅) [file_bad; file_a]
         = (staged (start None ∅) "Scan049/bad.tif", Some e)
       ∧ e = ValueError_unpack.
Proof.
  destruct (bad_description_ends_batch (start None ∅) file_bad [file_a]
              [[description (unlines ["images=3"; "no separator"])]]
              [description (unlines ["images=3"; "no separator"])]
              (description (unlines ["images=3"; "no separator"]))
              ["images=3"; "no separator"] "no separator") as (e & He & Hloop & Hfirst).
  - reflexivity.
  - apply not_elem_of_nil.
  - reflexivity.
  - apply list_elem_of_here.
  - apply list_elem_of_here.
  - reflexivity.
  - reflexivity.
  - apply list_elem_of_further, list_elem_of_here.
  - reflexivity.
  - exists e. split; [done|]. split; [done|].
    apply (Hfirst [] [] ["images=3"] [] ∅ (<["images" := VInt 3]> ∅)); reflexivity.
Defined.

(** C2, as the spec has it, fails on the bucket [[file_bad; file_a]]: the
    loop ends at [file_bad] with the exception; [file_a] is never fetched and
    no inventory file is written, where a loop that went on to the next key
    would have fetched it and written its row. *)
Lemma bad_description_stops_loop :
  batch_loop (start None ∅) [file_bad; file_a]
    = (staged (start None ∅) "Scan049/bad.tif", Some ValueError_unpack)
  ∧ downloads (staged (start None ∅) "Scan049/bad.tif") = ["Scan049/bad.tif"]
  ∧ inventory (staged (start None ∅) "Scan049/bad.tif") = None
  ∧ downloads (batch_loop (staged (start None ∅) "Scan049/bad.tif") [file_a]).1
    = ["Scan049/bad.tif"; "Scan050/a.tif"]
  ∧ inventory (batch_loop (staged (start None ∅) "Scan049/bad.tif") [file_a]).1
    = Some [Header (dom (row row_a)); Row row_a].
Proof. repeat split; reflexivity. Qed.
(** ** Running the loop again in one session *)

(** A turn that raises nothing leaves a key that passes the two tests in
    [tif_files_done], and takes no key out of the list. *)
Lemma loop_body_marks_done w file w' :
  loop_body w file = (w', None) →
  (∀ k, k ∈ tif_files_done w → k ∈ tif_files_done w')
  ∧ (wanted (key file) = true → key file ∈ tif_files_done w').
Proof.
  rewrite loop_body_unfold. destruct (wanted (key file)).
  - case_bool_decide as Hk.
    + intros [= <-]. by split.
    + destruct (content file) as [| |pages]; [done..|].
      destruct (process_tif (metadata w) pages (key file)) as [[files df]|]; [|done].
      intros [= <-]. cbn [tif_files_done]. split.
      * intros k Hin. apply elem_of_app. by left.
      * intros _. apply elem_of_app. right. apply list_elem_of_here.
  - intros [= <-]. by split.
Qed.

Lemma batch_loop_marks_done files w w' :
  batch_loop w files = (w', None) →
  (∀ k, k ∈ tif_files_done w → k ∈ tif_files_done w')
  ∧ (∀ file, file ∈ files → wanted (key file) = true → key file ∈ tif_files_done w').
Proof.
  revert w. induction files as [|file files IH]; intros w; simpl.
  - intros [= <-]. split; [done|]. intros file Hin. by apply elem_of_nil in Hin.
  - destruct (loop_body w file) as [w1 [e|]] eqn:E; [done|].
    intros Hrun. destruct (loop_body_marks_done _ _ _ E) as [Hmono Hfile].
    destruct (IH _ Hrun) as [Hmono' Hfiles]. split; [by auto|].
    intros file' [->|Hin]%elem_of_cons Hw; [by auto | by apply Hfiles].
Qed.

(** The loop over keys that are all done or filtered out fetches nothing
    and writes nothing. *)
Lemma batch_loop_all_done files w :
  (∀ file, file ∈ files → wanted (key file) = true → key file ∈ tif_files_done w) →
  ∃ w', batch_loop w files = (w', None)
        ∧ tif_files_done w' = tif_files_done w ∧ inventory w' = inventory w
        ∧ metadata w' = metadata w ∧ downloads w' = downloads w.
Proof.
  revert w. induction files as [|file files IH]; intros w Hdone; simpl.
  - by exists w.
  - rewrite loop_body_unfold. destruct (wanted (key file)) eqn:Hw.
    + rewrite bool_decide_eq_true_2 by (apply Hdone; [apply list_elem_of_here | done]).
      destruct (IH {| tif_files := tif_files w ++ [key file];
                      tif_files_done := tif_files_done w; inventory := inventory w;
                      metadata := metadata w; downloads := downloads w |})
        as (w' & Hrun & H); [|by exists w'].
      intros file' Hin. apply Hdone. by apply list_elem_of_further.
    + apply IH. intros file' Hin. apply Hdone. by apply list_elem_of_further.
Qed.

(** X10. When the loop has come to its end without an exception and is
    run again over the same listing with the two lists kept, it fetches
    nothing and writes nothing: [tif_files_done], the inventory file, the
    metadata files and the downloads are as the first run left them. *)
Lemma rerun_in_session w files w' :
  batch_loop w files = (w', None) →
  ∃ w'', batch_loop w' files = (w'', None)
         ∧ tif_files_done w'' = tif_files_done w' ∧ inventory w'' = inventory w'
         ∧ metadata w'' = metadata w' ∧ downloads w'' = downloads w'.
Proof.
  intros Hrun. apply batch_loop_all_done.
  intros file Hin Hw. by apply (batch_loop_marks_done files w w' Hrun).
Qed.
(** ** [int] reads what [str] writes *)

Lemma pretty_N_char_digit r :
  (r < 10)%N →
  digit_value (pretty_N_char r) = Some (Z.of_N r)
  ∧ is_space (pretty_N_char r) = false
  ∧ pretty_N_char r ≠ "+"%char ∧ pretty_N_char r ≠ "-"%char.
Proof.
  intros Hr.
  assert (r = 0%N ∨ r = 1%N ∨ r = 2%N ∨ r = 3%N ∨ r = 4%N ∨ r = 5%N ∨ r = 6%N
          ∨ r = 7%N ∨ r = 8%N ∨ r = 9%N) as H by lia.
  repeat destruct H as [H|H]; subst r; by repeat split.
Qed.

Lemma scan_digits_pretty x s prev :
  (0 < x)%N → scan_digits prev 0 (pretty_N_go x s) = scan_digits Digit (Z.of_N x) s.
Proof.
  revert s prev. induction (N.lt_wf_0 x) as [x _ IH]; intros s prev Hx.
  rewrite pretty_N_go_step by done.
  destruct (pretty_N_char_digit (x `mod` 10)%N) as (Hd & _); [by apply N.mod_lt|].
  assert (Z.of_N x = 10 * Z.of_N (x `div` 10) + Z.of_N (x `mod` 10)) as Hx10.
  { rewrite (N.div_mod x 10) at 1 by done. lia. }
  destruct (decide (x `div` 10 = 0)%N) as [E|E].
  - rewrite E, pretty_N_go_0 in *. cbn [scan_digits]. rewrite Hd. by rewrite Hx10.
  - rewrite IH; [|apply N.div_lt; lia|by apply N.neq_0_lt_0].
    cbn [scan_digits]. rewrite Hd. by rewrite Hx10.
Qed.

Lemma pretty_N_go_head x s :
  (0 < x)%N → ∃ r s', (r < 10)%N ∧ pretty_N_go x s = String (pretty_N_char r) s'.
Proof.
  revert s. induction (N.lt_wf_0 x) as [x _ IH]; intros s Hx.
  rewrite pretty_N_go_step by done.
  destruct (decide (x `div` 10 = 0)%N) as [E|E].
  - rewrite E, pretty_N_go_0. exists (x `mod` 10)%N, s. split; [by apply N.mod_lt|done].
  - apply IH; [apply N.div_lt; lia|by apply N.neq_0_lt_0].
Qed.

Lemma py_int_digits x :
  (0 < x)%N →
  py_int (pretty_N_go x EmptyString) = Ok (Z.of_N x)
  ∧ py_int (String "-" (pretty_N_go x EmptyString)) = Ok (- Z.of_N x).
Proof.
  intros Hx. pose proof (scan_digits_pretty x EmptyString Nothing Hx) as Hscan.
  destruct (pretty_N_go_head x EmptyString Hx) as (r & s' & Hr & Hhead).
  destruct (pretty_N_char_digit r Hr) as (_ & Hsp & Hplus & Hminus).
  unfold py_int. cbn [lstrip]. rewrite Hhead in *. cbn [lstrip is_space].
  change (is_space "-") with false. cbn iota. rewrite Hsp.
  split.
  - destruct (pretty_N_char r) as [[] [] [] [] [] [] [] []] eqn:Ec;
      try (rewrite Hscan; cbn; f_equal; lia); done.
  - rewrite Hscan. cbn. f_equal; lia.
Qed.

(** [int(str(n)) == n]: the decimal of an integer is read back as the
    integer. *)
Lemma py_int_pretty (n : Z) : py_int (pretty n) = Ok n.
Proof.
  destruct n as [|p|p]; [reflexivity| |].
  - change (pretty (Z.pos p)) with (pretty_N_go (N.pos p) EmptyString).
    by destruct (py_int_digits (N.pos p)).
  - change (pretty (Z.neg p)) with (String "-" (pretty_N_go (N.pos p) EmptyString)).
    by destruct (py_int_digits (N.pos p)).
Qed.

Lemma pretty_N_go_no_sep x s :
  mem_char "=" s = false → mem_char "=" (pretty_N_go x s) = false.
Proof.
  revert s. induction (N.lt_wf_0 x) as [x _ IH]; intros s Hs.
  destruct (decide (x = 0)%N) as [->|Hx]; [by rewrite pretty_N_go_0|].
  rewrite pretty_N_go_step by (by apply N.neq_0_lt_0).
  apply IH; [apply N.div_lt; [by apply N.neq_0_lt_0 | done]|].
  cbn [mem_char]. rewrite Hs, orb_false_r.
  assert (x `mod` 10 < 10)%N as Hr by (by apply N.mod_lt).
  revert Hr. generalize (x `mod` 10)%N. intros r Hr.
  assert (r = 0%N ∨ r = 1%N ∨ r = 2%N ∨ r = 3%N ∨ r = 4%N ∨ r = 5%N ∨ r = 6%N
          ∨ r = 7%N ∨ r = 8%N ∨ r = 9%N) as H by lia.
  repeat destruct H as [H|H]; by subst r.
Qed.

Lemma pretty_Z_no_sep (n : Z) : mem_char "=" (pretty n) = false.
Proof.
  destruct n as [|p|p]; [reflexivity| |].
  - change (pretty (Z.pos p)) with (pretty_N_go (N.pos p) EmptyString).
    by apply pretty_N_go_no_sep.
  - change (pretty (Z.neg p)) with (String "-" (pretty_N_go (N.pos p) EmptyString)).
    cbn [mem_char]. by rewrite pretty_N_go_no_sep.
Qed.

(** X1. A line [key=n] of the description, [key] one of [images],
    [channels], [slices] and [n] an integer written in decimal as [str]
    writes it, stores the integer [n] under [key]. *)
Lemma store_item_counter d key (n : Z) :
  key ∈ ["images"; "channels"; "slices"] →
  store_item d (key +:+ String "=" (pretty n)) = Ok (<[key := VInt n]> d).
Proof.
  intros Hkey. pose proof (pretty_Z_no_sep n) as Hsep.
  assert (mem_char "=" key = false
          ∧ convert key (pretty n) = (x ← py_int (pretty n); Ok (VInt x))) as [Hk Hc].
  { rewrite !elem_of_cons, elem_of_nil in Hkey.
    destruct Hkey as [->|[->|[->|[]]]]; by split. }
  rewrite store_item_field, Hc, py_int_pretty by done. reflexivity.
Qed.
(** * More of the code *)

(** ** The lines of a description *)

Lemma store_item_counter_witness :
  store_item ∅ "slices=737" = Ok (<["slices" := VInt 737]> ∅)
  ∧ store_item ∅ "images=-2" = Ok (<["images" := VInt (-2)]> ∅).
Proof.
  split.
  - apply (store_item_counter ∅ "slices" 737).
    apply list_elem_of_further, list_elem_of_further, list_elem_of_here.
  - apply (store_item_counter ∅ "images" (-2)). apply list_elem_of_here.
Defined.

Lemma length_split_on sep s : length (split_on sep s) = S (count_char sep s).
Proof.
  induction s as [|c s IH]; [done|]. cbn [split_on count_char].
  destruct (Ascii.eqb c sep); [cbn [length]; by rewrite IH|].
  destruct (split_on sep s) as [|p ps]; simpl in *; lia.
Qed.

Lemma convert_raises key value e : convert key value = Raise e → e = ValueError_int.
Proof.
  unfold convert. repeat case_bool_decide; try done.
  unfold py_int. destruct (lstrip value) as [|c s']; cbn.
  - by intros [= <-].
  - repeat case_match; simpl; intros [= <-]; done.
Qed.

(** X2. A line of the description raises the [ValueError] of the unpacking
    exactly when the number of its [=] is not one: no [=], or two and more. *)
Theorem store_item_unpack_iff (d : gmap string pyval) (item : string) :
  store_item d item = Raise ValueError_unpack ↔ count_char "=" item ≠ 1%nat.
Proof.
  pose proof (length_split_on "=" item) as Hlen. unfold store_item.
  destruct (split_on "=" item) as [|k [|v [|x l]]]; cbn [length] in Hlen.
  - done.
  - split; [intros _; lia | done].
  - split; [|lia]. destruct (convert k v) as [x|e] eqn:E; [done|].
    apply convert_raises in E as ->. done.
  - split; [intros _; lia | done].
Qed.
(** ** Bytes and text *)

Lemma byte_below_128 (c : ascii) : Byte.to_N (byte_of_ascii c) = N_of_ascii c.
Proof. by destruct c as [[] [] [] [] [] [] [] []]. Qed.

Lemma decode_encode s : is_ascii s = true → decode_ascii (encode s) = Ok s.
Proof.
  induction s as [|c s IH]; [done|]. cbn [is_ascii]. intros [Hc Hs]%andb_true_iff.
  change (encode (String c s)) with (byte_of_ascii c :: encode s). cbn [decode_ascii].
  rewrite byte_below_128, Hc, (IH Hs). simpl. by rewrite ascii_of_byte_of_ascii.
Qed.

(** [decode('ASCII')] returns a text exactly when every byte is below 128,
    and then the text has the bytes one for one; with a byte from 128 on it
    raises [UnicodeDecodeError], whatever the other bytes are. *)
Lemma decode_ascii_spec (bs : list Byte.byte) :
  (Forall (fun b => (Byte.to_N b < 128)%N) bs →
   ∃ s, decode_ascii bs = Ok s ∧ encode s = bs ∧ String.length s = length bs)
  ∧ (Exists (fun b => (128 ≤ Byte.to_N b)%N) bs → decode_ascii bs = Raise UnicodeDecodeError).
Proof.
  split.
  - induction 1 as [|b bs Hb _ (s & Hs & Henc & Hlen)].
    + by exists EmptyString.
    + exists (String (ascii_of_byte b) s). cbn [decode_ascii].
      apply N.ltb_lt in Hb. rewrite Hb, Hs. split; [done|].
      change (encode (String (ascii_of_byte b) s)) with (byte_of_ascii (ascii_of_byte b) :: encode s).
      rewrite byte_of_ascii_of_byte, Henc. split; [done|]. simpl. by rewrite Hlen.
  - induction 1 as [b bs Hb|b bs _ IH]; cbn [decode_ascii].
    + apply N.ltb_ge in Hb. by rewrite Hb.
    + rewrite IH. by destruct (Byte.to_N b <? 128)%N.
Qed.

Lemma split_on_unlines ls :
  Forall (fun line => mem_char LF line = false) ls →
  split_on LF (unlines ls) = ls ++ [EmptyString].
Proof.
  induction 1 as [|line ls Hline _ IH]; [done|]. cbn [unlines fold_right].
  change (fold_right (fun line s => line +:+ String LF s) EmptyString ls) with (unlines ls).
  by rewrite split_on_app, split_on_no_sep, IH.
Qed.

Lemma is_ascii_app s t : is_ascii (s +:+ t) = is_ascii s && is_ascii t.
Proof.
  induction s as [|c s IH]; [done|]. rewrite app_String. cbn [is_ascii].
  by rewrite IH, andb_assoc.
Qed.

Lemma is_ascii_unlines ls :
  Forall (fun line => is_ascii line = true) ls → is_ascii (unlines ls) = true.
Proof.
  induction 1 as [|line ls Hline _ IH]; [done|]. cbn [unlines fold_right].
  change (fold_right (fun line s => line +:+ String LF s) EmptyString ls) with (unlines ls).
  rewrite is_ascii_app, Hline. cbn [is_ascii]. by rewrite IH.
Qed.

(** X3. Of a description made of lines that each end in a line feed, the
    items of [read_metadata] are the lines, one for one: the segment cut off
    by [[:-1]] is the empty one after the last line feed. *)
Theorem description_items_unlines (ls : list string) :
  Forall (fun line => mem_char LF line = false) ls →
  Forall (fun line => is_ascii line = true) ls →
  description_items (value (description (unlines ls))) = Ok ls.
Proof.
  intros Hlf Hasc. unfold description_items, description. cbn [value decode].
  rewrite decode_encode by by apply is_ascii_unlines. simpl.
  by rewrite split_on_unlines, removelast_snoc.
Qed.

Lemma description_items_unlines_witness :
  description_items
    (value (description (unlines ["ImageJ=1.51h"; "images=2211"; "channels=3"; "slices=737";
                                  "hyperstack=true"; "mode=composite"; "loop=false"])))
  = Ok ["ImageJ=1.51h"; "images=2211"; "channels=3"; "slices=737";
        "hyperstack=true"; "mode=composite"; "loop=false"].
Proof.
  apply description_items_unlines; repeat (constructor; [reflexivity|]); constructor.
Defined.
(** ** The keys of the dictionary *)

Lemma store_item_dom d item d' :
  store_item d item = Ok d' → dom d' = {[item_key item]} ∪ dom d.
Proof.
  unfold store_item, item_key.
  destruct (split_on "=" item) as [|k [|v [|? ?]]]; try done.
  destruct (convert k v) as [x|]; simpl; [|done].
  intros [= <-]. by rewrite dom_insert_L.
Qed.

Lemma store_items_dom items d d' :
  foldM store_item d items = Ok d' →
  dom d' = list_to_set (item_key <$> items) ∪ dom d.
Proof.
  revert d. induction items as [|item items IH]; intros d; cbn [foldM].
  - intros [= <-]. by rewrite fmap_nil, list_to_set_nil, (left_id_L ∅ (∪)).
  - destruct (store_item d item) as [d1|] eqn:E; cbn [mbind result_bind]; [|done].
    intros H. rewrite (IH _ H), (store_item_dom _ _ _ E), fmap_cons, list_to_set_cons.
    apply set_eq. intros x. rewrite !elem_of_union. tauto.
Qed.

Lemma store_tag_dom d tag d' :
  store_tag d tag = Ok d' → dom d' = list_to_set (tag_keys tag) ∪ dom d.
Proof.
  unfold store_tag, tag_keys.
  case_bool_decide; [|case_bool_decide].
  - destruct (description_items (value tag)) as [items|]; cbn [mbind result_bind]; [|done].
    apply store_items_dom.
  - destruct (subscript0 (value tag)) as [n|]; cbn [mbind result_bind]; [|done].
    destruct (py_float n) as [f|]; cbn [mbind result_bind]; [|done].
    intros [= <-]. by rewrite dom_insert_L, list_to_set_singleton_L.
  - intros [= <-]. by rewrite dom_insert_L, list_to_set_singleton_L.
Qed.

Lemma store_tags_dom tags d d' :
  foldM store_tag d tags = Ok d' →
  dom d' = list_to_set (tags ≫= tag_keys) ∪ dom d.
Proof.
  revert d. induction tags as [|tag tags IH]; intros d; cbn [foldM].
  - intros [= <-]. symmetry. apply (left_id_L ∅ (∪)).
  - destruct (store_tag d tag) as [d1|] eqn:E; cbn [mbind result_bind]; [|done].
    intros H. rewrite (IH _ H), (store_tag_dom _ _ _ E), bind_cons, list_to_set_app_L.
    apply set_eq. intros x. rewrite !elem_of_union. tauto.
Qed.

(** X5. When [read_metadata] returns, the keys of its dictionary are the
    keys its tags are stored under, no more and no fewer: the name of every
    tag but [image_description] and [strip_byte_counts], [sizeInGB] for
    [strip_byte_counts], and the keys of the lines of the descriptions.
    The dictionary has no key [image_description] or [strip_byte_counts]
    unless a line of a description has that key. *)
Theorem read_metadata_keys (tif : list TiffPage) (d : gmap string pyval) (k : string) :
  read_metadata tif = Ok d →
  k ∈ dom d ↔ ∃ tag, tag ∈ concat tif ∧ k ∈ tag_keys tag.
Proof.
  unfold read_metadata. rewrite foldM_concat. intros H%store_tags_dom.
  rewrite H, dom_empty_L, (right_id_L ∅ (∪)), elem_of_list_to_set, list_elem_of_bind.
  split; intros (tag & ? & ?); by exists tag.
Qed.

Lemma read_metadata_keys_witness :
  "channels" ∈ dom d_two_fields ↔
  ∃ tag, tag ∈ concat tif_two_fields ∧ "channels" ∈ tag_keys tag.
Proof. apply (read_metadata_keys tif_two_fields d_two_fields "channels"). reflexivity. Defined.
(** ** What a turn of the loop does *)

Lemma wanted_true_spec k :
  wanted k = true ↔
  (∀ name, name ∈ exclude_list → ¬ ∃ pre post, k = pre +:+ name +:+ post)
  ∧ ∃ pre, k = pre +:+ "tif".
Proof.
  split.
  - intros Hw. split.
    + intros name Hin Hsub. assert (wanted k = false) as Hf; [|congruence].
      apply wanted_spec. left. by exists name.
    + destruct (endswith k "tif") eqn:E; [by apply endswith_spec|].
      assert (wanted k = false) as Hf; [|congruence].
      apply wanted_spec. right. rewrite <- endswith_spec. congruence.
  - intros [Hex Hend]. destruct (wanted k) eqn:E; [done|].
    apply wanted_spec in E as [(name & Hin & Hsub)|Hn]; [by destruct (Hex name)|done].
Qed.

Lemma process_tif_ok files tif label d :
  read_metadata tif = Ok d →
  process_tif files tif label
  = Ok (<[metadata_filename label := d]> files, {| index := label; row := small_d d |}).
Proof. intros Hd. unfold process_tif. by rewrite Hd. Qed.

Lemma process_tif_raise files tif label e :
  read_metadata tif = Raise e → process_tif files tif label = Raise e.
Proof. intros Hd. unfold process_tif. by rewrite Hd. Qed.

(** The four ways a turn of the loop can go. *)
Lemma loop_body_cases w file :
  (wanted (key file) = false ∧ loop_body w file = (w, None))
  ∨ (wanted (key file) = true ∧ key file ∈ tif_files_done w
     ∧ loop_body w file
       = ({| tif_files := tif_files w ++ [key file]; tif_files_done := tif_files_done w;
             inventory := inventory w; metadata := metadata w; downloads := downloads w |},
          None))
  ∨ (wanted (key file) = true ∧ (key file ∉ tif_files_done w)
     ∧ ∃ e, loop_body w file = (staged w (key file), Some e)
            ∧ (content file = Unreachable ∧ e = ClientError
               ∨ content file = NotTiff ∧ e = ValueError_tiff
               ∨ ∃ pages, content file = Tiff pages ∧ read_metadata pages = Raise e))
  ∨ (wanted (key file) = true ∧ (key file ∉ tif_files_done w)
     ∧ ∃ pages d, content file = Tiff pages ∧ read_metadata pages = Ok d
                  ∧ loop_body w file = (recorded w (key file) d, None)).
Proof.
  rewrite loop_body_unfold. destruct (wanted (key file)); [|by left].
  right. case_bool_decide as Hk; [by left|]. right.
  destruct (content file) as [| |pages] eqn:Ec.
  - left. split; [done|]. split; [done|]. exists ClientError. split; [done|]. by left.
  - left. split; [done|]. split; [done|]. exists ValueError_tiff. split; [done|].
    right. by left.
  - destruct (read_metadata pages) as [d|e] eqn:Ed.
    + right. split; [done|]. split; [done|]. exists pages, d.
      by rewrite (process_tif_ok _ _ _ _ Ed).
    + left. split; [done|]. split; [done|]. exists e.
      rewrite (process_tif_raise _ _ _ _ Ed). split; [done|]. right. right. by exists pages.
Qed.

(** X13. A key that holds no name of the exclude list, ends in [tif] and is
    not in [tif_files_done], whose file is a TIFF file [read_metadata] reads,
    is recorded in one turn: the file is fetched once, the whole dictionary
    is dumped to the metadata file of the key, its row is appended to the
    inventory file, and the key is appended to both lists. *)
Theorem loop_body_records (w : notebook) (file : s3_object) (pages : list TiffPage)
    (d : gmap string pyval) :
  (∀ name, name ∈ exclude_list → ¬ ∃ pre post, key file = pre +:+ name +:+ post) →
  (∃ pre, key file = pre +:+ "tif") →
  key file ∉ tif_files_done w →
  content file = Tiff pages → read_metadata pages = Ok d →
  loop_body w file = (recorded w (key file) d, None).
Proof.
  intros Hex Hend Hdone Hc Hd.
  assert (wanted (key file) = true) as Hw by (by apply wanted_true_spec).
  rewrite loop_body_unfold, Hw, bool_decide_eq_false_2, Hc by done.
  by rewrite (process_tif_ok _ _ _ _ Hd).
Qed.

Lemma loop_body_records_witness :
  loop_body (start None ∅) file_a = (recorded (start None ∅) "Scan050/a.tif" d_two_fields, None).
Proof.
  apply (loop_body_records (start None ∅) file_a tif_two_fields d_two_fields).
  - apply wanted_true_spec. reflexivity.
  - apply wanted_true_spec. reflexivity.
  - apply not_elem_of_nil.
  - reflexivity.
  - reflexivity.
Defined.
(** ** What the loop leaves behind *)

(** X6. When the loop ends by an exception, the keys before the failing one
    have been gone through without one, and of the failing key there is the
    fetch and the entry in [tif_files] and nothing else: no metadata file,
    no row, no entry in [tif_files_done]. The exception tells what failed:
    the download, the opening of the file as a TIFF file, or
    [read_metadata]. *)
Theorem batch_loop_raises (w : notebook) (files : list s3_object) (w' : notebook) (e : exn) :
  batch_loop w files = (w', Some e) →
  ∃ before file after w0,
    files = before ++ file :: after
    ∧ batch_loop w before = (w0, None)
    ∧ w' = staged w0 (key file)
    ∧ wanted (key file) = true ∧ (key file ∉ tif_files_done w0)
    ∧ (content file = Unreachable ∧ e = ClientError
       ∨ content file = NotTiff ∧ e = ValueError_tiff
       ∨ ∃ pages, content file = Tiff pages ∧ read_metadata pages = Raise e).
Proof.
  revert w. induction files as [|file files IH]; intros w; cbn [batch_loop]; [done|].
  destruct (loop_body w file) as [w1 [e1|]] eqn:E.
  - intros [= <- <-]. exists [], file, files, w.
    destruct (loop_body_cases w file)
      as [[_ H]|[(_ & _ & H)|[(Hw & Hd & e' & H & Hc)|(_ & _ & p & d & _ & _ & H)]]];
      rewrite H in E; try done.
    injection E as <- <-. done.
  - intros (before & f & after & w0 & -> & Hb & -> & H)%IH.
    exists (file :: before), f, after, w0. split; [done|]. split; [|done].
    cbn [batch_loop]. by rewrite E.
Qed.

Lemma batch_loop_raises_witness :
  ∃ before file after w0,
    [file_a; file_bad; file_a] = before ++ file :: after
    ∧ batch_loop (start None ∅) before = (w0, None)
    ∧ staged (recorded (start None ∅) "Scan050/a.tif" d_two_fields) "Scan049/bad.tif"
      = staged w0 (key file)
    ∧ wanted (key file) = true ∧ (key file ∉ tif_files_done w0)
    ∧ (content file = Unreachable ∧ ValueError_unpack = ClientError
       ∨ content file = NotTiff ∧ ValueError_unpack = ValueError_tiff
       ∨ ∃ pages, content file = Tiff pages ∧ read_metadata pages = Raise ValueError_unpack).
Proof.
  apply (batch_loop_raises (start None ∅) [file_a; file_bad; file_a]). reflexivity.
Defined.

(** X12. When the loop comes to its end, [tif_files] has grown by every key
    of the listing that holds no name of the exclude list and ends in [tif],
    in the order of the listing, the keys that were done before and the keys
    listed twice included. *)
Theorem tif_files_grows (w : notebook) (files : list s3_object) (w' : notebook) :
  batch_loop w files = (w', None) →
  tif_files w' = tif_files w ++ filter (fun k => wanted k = true) (key <$> files).
Proof.
  revert w. induction files as [|file files IH]; intros w; cbn [batch_loop].
  - intros [= <-]. by rewrite fmap_nil, filter_nil, app_nil_r.
  - destruct (loop_body w file) as [w1 [e1|]] eqn:E; [done|]. intros Hrun%IH.
    rewrite Hrun, fmap_cons.
    destruct (loop_body_cases w file)
      as [[Hw H]|[(Hw & _ & H)|[(_ & _ & e' & H & _)|(Hw & _ & p & d & _ & _ & H)]]];
      rewrite H in E; try done; injection E as <-.
    + by rewrite filter_cons_False by congruence.
    + rewrite filter_cons_True by done. cbn [tif_files]. by rewrite <- app_assoc.
    + rewrite filter_cons_True by done. cbn [tif_files recorded]. by rewrite <- app_assoc.
Qed.

Lemma tif_files_grows_witness :
  tif_files (batch_loop first_run [file_a]).1 = ["Scan050/a.tif"; "Scan050/a.tif"].
Proof.
  rewrite (tif_files_grows first_run [file_a] (batch_loop first_run [file_a]).1); reflexivity.
Defined.
(** ** The inventory file *)

(** X7. The rows the loop appends, the keys it appends to [tif_files_done]
    and, when it comes to its end, the files it fetches are the same keys in
    the same order; each of them is a key of the listing whose file
    [read_metadata] has read, and its row is the reduced dictionary of that
    file. *)
Theorem batch_loop_rows (w : notebook) (files : list s3_object) (w' : notebook)
    (r : option exn) :
  batch_loop w files = (w', r) →
  ∃ new : list DataFrame,
    tif_files_done w' = tif_files_done w ++ (index <$> new)
    ∧ inventory w' = fold_left to_csv new (inventory w)
    ∧ (r = None → downloads w' = downloads w ++ (index <$> new))
    ∧ ∀ df, df ∈ new →
        ∃ file pages d, file ∈ files ∧ key file = index df ∧ content file = Tiff pages
                        ∧ read_metadata pages = Ok d ∧ row df = small_d d.
Proof.
  revert w. induction files as [|file files IH]; intros w; cbn [batch_loop].
  - intros [= <- <-]. exists []. rewrite fmap_nil, !app_nil_r. repeat split; try done.
    intros df Hdf. by apply elem_of_nil in Hdf.
  - destruct (loop_body_cases w file)
      as [[_ H]|[(_ & _ & H)|[(_ & _ & e' & H & _)|(_ & _ & p & d & Hc & Hd & H)]]];
      rewrite H.
    + intros (new & Hdone & Hinv & Hdl & Hnew)%IH. exists new.
      split; [done|]. split; [done|]. split; [done|].
      intros df (f & Hf)%Hnew. exists f. destruct Hf as (pg & d' & Hin & Hf).
      exists pg, d'. split; [by right | done].
    + intros (new & Hdone & Hinv & Hdl & Hnew)%IH. exists new.
      split; [done|]. split; [done|]. split; [done|].
      intros df (f & Hf)%Hnew. exists f. destruct Hf as (pg & d' & Hin & Hf).
      exists pg, d'. split; [by right | done].
    + intros [= <- <-]. exists []. rewrite fmap_nil, app_nil_r.
      split; [done|]. split; [done|]. split; [done|].
      intros df Hdf. by apply elem_of_nil in Hdf.
    + intros (new & Hdone & Hinv & Hdl & Hnew)%IH.
      exists ({| index := key file; row := small_d d |} :: new).
      cbn [recorded tif_files_done inventory downloads] in *.
      rewrite fmap_cons. cbn [index fold_left].
      rewrite Hdone, Hinv, <- !app_assoc. split; [done|]. split; [done|].
      split; [intros Hr; by rewrite (Hdl Hr), <- app_assoc|].
      intros df [->|Hdf]%elem_of_cons.
      * exists file, p, d. split; [by left | done].
      * destruct (Hnew df Hdf) as (f & pg & d' & Hin & Hf).
        exists f, pg, d'. split; [by right | done].
Qed.

Lemma batch_loop_rows_witness :
  ∃ new : list DataFrame,
    tif_files_done first_run = index <$> new
    ∧ inventory first_run = fold_left to_csv new None
    ∧ downloads first_run = index <$> new.
Proof.
  destruct (batch_loop_rows (start None ∅) [file_a] first_run None eq_refl)
    as (new & Hdone & Hinv & Hdl & _).
  exists new. split; [exact Hdone|]. split; [exact Hinv|]. exact (Hdl eq_refl).
Defined.

(** What a turn does to the inventory file. *)
Lemma loop_body_inventory w file :
  inventory (loop_body w file).1 = inventory w
  ∨ ∃ df, dom (row df) = list_to_set reduced_keys
          ∧ inventory (loop_body w file).1 = to_csv (inventory w) df.
Proof.
  destruct (loop_body_cases w file)
    as [[_ H]|[(_ & _ & H)|[(_ & _ & e' & H & _)|(_ & _ & p & d & _ & _ & H)]]];
    rewrite H; [by left..|].
  right. exists {| index := key file; row := small_d d |}. split; [apply small_d_dom|done].
Qed.

(** X8. The loop only appends to the inventory file: the lines that are
    there stay as they are and rows come after them, without a header. When
    there is no file, the loop leaves none or makes one whose first line is
    the header of the six columns, followed by rows. *)
Theorem inventory_append_only (w : notebook) (files : list s3_object) :
  match inventory w with
  | Some lines => ∃ rows, inventory (batch_loop w files).1 = Some (lines ++ (Row <$> rows))
  | None =>
      inventory (batch_loop w files).1 = None
      ∨ ∃ df rows, inventory (batch_loop w files).1
                   = Some (Header (list_to_set reduced_keys) :: Row df :: (Row <$> rows))
  end.
Proof.
  assert (∀ files w lines, inventory w = Some lines →
            ∃ rows, inventory (batch_loop w files).1 = Some (lines ++ (Row <$> rows))) as Hsome.
  { clear. induction files as [|file files IH]; intros w lines Hinv; cbn [batch_loop].
    - exists []. by rewrite fmap_nil, app_nil_r.
    - destruct (loop_body_inventory w file) as [Hi|(df & _ & Hi)];
        destruct (loop_body w file) as [w1 [e|]]; cbn [fst] in *.
      + exists []. by rewrite fmap_nil, app_nil_r, Hi.
      + apply IH. congruence.
      + exists [df]. by rewrite Hi, Hinv.
      + destruct (IH w1 (lines ++ [Row df])) as [rows Hrows]; [by rewrite Hi, Hinv|].
        exists (df :: rows). by rewrite Hrows, fmap_cons, <- app_assoc. }
  destruct (inventory w) as [lines|] eqn:Hinv; [by apply Hsome|].
  revert w Hinv. induction files as [|file files IH]; intros w Hinv; cbn [batch_loop].
  - by left.
  - destruct (loop_body_inventory w file) as [Hi|(df & Hcols & Hi)];
      destruct (loop_body w file) as [w1 [e|]]; cbn [fst] in *.
    + left. congruence.
    + apply IH. congruence.
    + right. exists df, []. rewrite Hi, Hinv. cbn [to_csv]. by rewrite Hcols.
    + right. destruct (Hsome files w1 [Header (list_to_set reduced_keys); Row df])
        as [rows Hrows]; [rewrite Hi, Hinv; cbn [to_csv]; by rewrite Hcols|].
      exists df, rows. by rewrite Hrows.
Qed.
(** ** One row for a label *)

(** A turn leaves the rows of [label] as they are, or appends one and marks
    the label done. *)
Lemma loop_body_rows w file label :
  rows_of label (inventory (loop_body w file).1) = rows_of label (inventory w)
  ∨ (length (rows_of label (inventory (loop_body w file).1))
     = S (length (rows_of label (inventory w)))
     ∧ label ∈ tif_files_done (loop_body w file).1).
Proof.
  destruct (loop_body_cases w file)
    as [[_ H]|[(_ & _ & H)|[(_ & _ & e' & H & _)|(_ & _ & p & d & _ & _ & H)]]];
    rewrite H; [by left..|].
  cbn [fst recorded inventory tif_files_done].
  destruct (decide (key file = label)) as [<-|Hne].
  - right. split; [|apply elem_of_app; right; apply list_elem_of_here].
    destruct (inventory w) as [lines|]; cbn [to_csv rows_of].
    + rewrite omap_app, length_app. cbn [omap list_omap index].
      rewrite bool_decide_eq_true_2 by done. cbn [length]. apply Nat.add_1_r.
    + cbn [omap list_omap index]. by rewrite bool_decide_eq_true_2.
  - left. by apply rows_of_to_csv.
Qed.

Lemma batch_loop_done_rows files w label :
  label ∈ tif_files_done w →
  rows_of label (inventory (batch_loop w files).1) = rows_of label (inventory w).
Proof.
  revert w. induction files as [|file files IH]; intros w Hdone; cbn [batch_loop]; [done|].
  destruct (loop_body_done w file label Hdone) as (_ & Hr & Hin).
  destruct (loop_body w file) as [w1 [e|]]; cbn [fst] in *; [done|].
  by rewrite (IH w1 Hin).
Qed.

(** X9. One run of the loop appends at most one row of a label to the
    inventory file, however often the listing has the key. *)
Theorem one_row_per_run (w : notebook) (files : list s3_object) (label : string) :
  (length (rows_of label (inventory (batch_loop w files).1))
   ≤ S (length (rows_of label (inventory w))))%nat.
Proof.
  revert w. induction files as [|file files IH]; intros w; cbn [batch_loop fst]; [lia|].
  destruct (loop_body_rows w file label) as [Hr|[Hr Hin]];
    destruct (loop_body w file) as [w1 [e|]]; cbn [fst] in *.
  - rewrite Hr. lia.
  - rewrite <- Hr. apply IH.
  - lia.
  - rewrite (batch_loop_done_rows files w1 label Hin). lia.
Qed.

(** A listing that has the key three times gives one row. *)
Example one_row_per_run_example :
  rows_of "Scan050/a.tif" (inventory (batch_loop (start None ∅) [file_a; file_a; file_a]).1)
  = [row_a].
Proof. reflexivity. Qed.

Lemma rerun_in_session_witness :
  ∃ w'', batch_loop first_run [file_a] = (w'', None)
         ∧ tif_files_done w'' = tif_files_done first_run
         ∧ inventory w'' = inventory first_run
         ∧ metadata w'' = metadata first_run ∧ downloads w'' = downloads first_run.
Proof. apply (rerun_in_session (start None ∅) [file_a] first_run). reflexivity. Defined.

(** ** Two labels of one file name *)

Lemma metadata_filename_last_segment l1 l2 :
  item_last (split_on "/" l1) = item_last (split_on "/" l2) →
  metadata_filename l1 = metadata_filename l2.
Proof. intros H. unfold metadata_filename. by rewrite H. Qed.

(** X11. Two keys that differ only in their folders have one metadata
    file. When the loop records both, each gets its row in the inventory
    file, but the metadata file holds the dictionary of the second alone:
    the dump of the first is overwritten. *)
Theorem same_name_overwrites (w : notebook) (f1 f2 : s3_object)
    (pages1 pages2 : list TiffPage) (d1 d2 : gmap string pyval) :
  wanted (key f1) = true → wanted (key f2) = true →
  key f1 ∉ tif_files_done w → key f2 ∉ tif_files_done w → key f1 ≠ key f2 →
  item_last (split_on "/" (key f1)) = item_last (split_on "/" (key f2)) →
  content f1 = Tiff pages1 → content f2 = Tiff pages2 →
  read_metadata pages1 = Ok d1 → read_metadata pages2 = Ok d2 →
  ∃ w', batch_loop w [f1; f2] = (w', None)
        ∧ metadata w' !! metadata_filename (key f1) = Some d2
        ∧ metadata w' !! metadata_filename (key f2) = Some d2
        ∧ rows_of (key f1) (inventory w')
          = rows_of (key f1) (inventory w) ++ [{| index := key f1; row := small_d d1 |}]
        ∧ rows_of (key f2) (inventory w')
          = rows_of (key f2) (inventory w) ++ [{| index := key f2; row := small_d d2 |}].
Proof.
  intros Hw1 Hw2 Hn1 Hn2 Hne Hseg Hc1 Hc2 Hd1 Hd2.
  pose proof (metadata_filename_last_segment _ _ Hseg) as Hname.
  exists (recorded (recorded w (key f1) d1) (key f2) d2).
  assert (∀ inv k d k', rows_of k' (to_csv inv {| index := k; row := d |})
            = rows_of k' inv ++ (if bool_decide (k = k') then [{| index := k; row := d |}] else []))
    as Hrows.
  { intros [lines|] k d k'; cbn [to_csv rows_of].
    - rewrite omap_app. cbn. by case_bool_decide.
    - cbn. by case_bool_decide. }
  split.
  - cbn [batch_loop].
    rewrite loop_body_unfold, Hw1, bool_decide_eq_false_2, Hc1, (process_tif_ok _ _ _ _ Hd1)
      by done.
    rewrite loop_body_unfold, Hw2, bool_decide_eq_false_2, Hc2.
    + cbn [metadata]. by rewrite (process_tif_ok _ _ _ _ Hd2).
    + cbn [tif_files_done]. rewrite elem_of_app, list_elem_of_singleton.
      intros [?|?]; [done | by apply Hne].
  - cbn [recorded metadata inventory]. rewrite Hname, lookup_insert_eq.
    split; [done|]. split; [done|]. rewrite !Hrows.
    rewrite (bool_decide_eq_true_2 (key f1 = key f1)) by done.
    rewrite (bool_decide_eq_true_2 (key f2 = key f2)) by done.
    rewrite (bool_decide_eq_false_2 (key f2 = key f1)) by (by intros ?).
    rewrite (bool_decide_eq_false_2 (key f1 = key f2)) by done.
    by rewrite !app_nil_r.
Qed.

Lemma same_name_overwrites_witness :
  ∃ w', batch_loop (start None ∅) [file_027; file_029] = (w', None)
        ∧ metadata w' !! metadata_filename "Holco_scan027/Fused.tif"
          = Some (<["image_width" := VStr "1480"]> ∅)
        ∧ metadata w' !! metadata_filename "Holco_scan029/Fused.tif"
          = Some (<["image_width" := VStr "1480"]> ∅)
        ∧ rows_of "Holco_scan027/Fused.tif" (inventory w')
          = [] ++ [{| index := "Holco_scan027/Fused.tif";
                      row := small_d (<["image_width" := VStr "1264"]> ∅) |}]
        ∧ rows_of "Holco_scan029/Fused.tif" (inventory w')
          = [] ++ [{| index := "Holco_scan029/Fused.tif";
                      row := small_d (<["image_width" := VStr "1480"]> ∅) |}].
Proof.
  apply (same_name_overwrites (start None ∅) file_027 file_029
           [[{| name := "image_width"; value := TInt 1264 |}]]
           [[{| name := "image_width"; value := TInt 1480 |}]]
           (<["image_width" := VStr "1264"]> ∅) (<["image_width" := VStr "1480"]> ∅));
    try reflexivity; try apply not_elem_of_nil.
  discriminate.
Defined.
(** ** The inventory file and the list of the keys done *)

Lemma loop_body_rows_match w file :
  rows_match_done w → rows_match_done (loop_body w file).1.
Proof.
  intros Hinv.
  destruct (loop_body_cases w file)
    as [[_ H]|[(_ & _ & H)|[(_ & _ & e' & H & _)|(_ & Hnew & p & d & _ & _ & H)]]];
    rewrite H; [done..|].
  intros k. cbn [fst recorded inventory tif_files_done]. specialize (Hinv k).
  destruct (decide (key file = k)) as [<-|Hne].
  - rewrite bool_decide_eq_false_2 in Hinv by done.
    rewrite bool_decide_eq_true_2 by (apply elem_of_app; right; apply list_elem_of_here).
    destruct (inventory w) as [lines|]; cbn [to_csv rows_of] in *.
    + rewrite omap_app, length_app, Hinv. cbn [omap list_omap index].
      by rewrite bool_decide_eq_true_2.
    + cbn [omap list_omap index]. by rewrite bool_decide_eq_true_2.
  - rewrite rows_of_to_csv, Hinv by done.
    rewrite (bool_decide_ext (k ∈ tif_files_done w ++ [key file]) (k ∈ tif_files_done w));
      [done|].
    rewrite elem_of_app, list_elem_of_singleton.
    split; [intros [?|?]; [done | congruence] | by left].
Qed.

(** X14. When the inventory file and [tif_files_done] agree before the loop
    (each key of the list has one row, no other key has one), they agree
    after it, exception or not. So after a run that starts with the empty
    list and no inventory file, the file has one row for each key that is
    done and no row for any other key. *)
Theorem rows_match_done_kept (w : notebook) (files : list s3_object) :
  rows_match_done w → rows_match_done (batch_loop w files).1.
Proof.
  revert w. induction files as [|file files IH]; intros w Hinv; cbn [batch_loop]; [done|].
  pose proof (loop_body_rows_match w file Hinv) as Hstep.
  destruct (loop_body w file) as [w1 [e|]]; cbn [fst] in *; [done|]. by apply IH.
Qed.

Lemma rows_match_done_start : rows_match_done (start None ∅).
Proof. intros k. cbn. by rewrite bool_decide_eq_false_2 by apply not_elem_of_nil. Qed.

Lemma rows_match_done_kept_witness :
  length (rows_of "Scan050/a.tif" (inventory (batch_loop (start None ∅) [file_a; file_bad; file_a]).1))
    = 1%nat
  ∧ length (rows_of "Scan049/bad.tif"
              (inventory (batch_loop (start None ∅) [file_a; file_bad; file_a]).1))
    = 0%nat.
Proof.
  pose proof (rows_match_done_kept (start None ∅) [file_a; file_bad; file_a]
                rows_match_done_start) as H.
  split; [exact (H "Scan050/a.tif") | exact (H "Scan049/bad.tif")].
Defined.
(** ** A page read twice *)

Lemma stores_alike_item item : stores_alike (fun d => store_item d item).
Proof.
  unfold store_item.
  destruct (split_on "=" item) as [|k [|v [|? ?]]];
    try (exists (Raise ValueError_unpack); done).
  destruct (convert k v) as [x|e].
  - exists (Ok {[k := x]}). intros d. cbn. by rewrite insert_union_singleton_l.
  - by exists (Raise e).
Qed.

Lemma stores_alike_foldM {A} (f : gmap string pyval → A → result (gmap string pyval))
    (l : list A) :
  (∀ x, stores_alike (fun d => f d x)) → stores_alike (fun d => foldM f d l).
Proof.
  intros Hf. induction l as [|x l [fields' IH]].
  - exists (Ok ∅). intros d. cbn. by rewrite (left_id_L ∅ (∪)).
  - destruct (Hf x) as [fields Hx]. cbn [foldM].
    destruct fields as [new|e]; [|exists (Raise e); intros d; by rewrite Hx].
    destruct fields' as [new'|e'].
    + exists (Ok (new' ∪ new)). intros d. rewrite Hx. cbn. rewrite IH. cbn.
      by rewrite (assoc_L (∪)).
    + exists (Raise e'). intros d. rewrite Hx. cbn. by rewrite IH.
Qed.

Lemma stores_alike_tag tag : stores_alike (fun d => store_tag d tag).
Proof.
  unfold store_tag. case_bool_decide; [|case_bool_decide].
  - destruct (description_items (value tag)) as [items|e]; [|by exists (Raise e)].
    destruct (stores_alike_foldM store_item items stores_alike_item) as [fields Hst].
    exists fields. intros d. cbn. apply Hst.
  - destruct (subscript0 (value tag)) as [n|e]; [|by exists (Raise e)].
    cbn [mbind result_bind].
    destruct (py_float n) as [f|e]; [|by exists (Raise e)].
    exists (Ok {["sizeInGB" := VFloat (f / 1000000000)%float]}). intros d. cbn.
    by rewrite insert_union_singleton_l.
  - exists (Ok {[name tag := VStr (py_str (value tag))]}). intros d. cbn.
    by rewrite insert_union_singleton_l.
Qed.

(** X15. A page that comes twice in a row is read as if it came once: in a
    stack whose pages carry the same tags, the pages after the first change
    nothing of what [read_metadata] returns or raises. *)
Theorem read_metadata_repeated_page (tif1 tif2 : list TiffPage) (page : TiffPage) :
  read_metadata (tif1 ++ page :: page :: tif2) = read_metadata (tif1 ++ page :: tif2).
Proof.
  unfold read_metadata. rewrite !foldM_app.
  destruct (foldM (foldM store_tag) ∅ tif1) as [d|e]; [|done]. cbn [mbind result_bind foldM].
  destruct (stores_alike_foldM store_tag page stores_alike_tag) as [[new|e] H];
    rewrite !H; cbn [mbind result_bind]; [|done].
  rewrite H. cbn [mbind result_bind].
  by rewrite (assoc_L (∪)), (idemp_L (∪)).
Qed.

Lemma read_metadata_stack :
  read_metadata [[{| name := "image_width"; value := TInt 512 |}];
                 [{| name := "image_width"; value := TInt 512 |}];
                 [{| name := "image_width"; value := TInt 512 |}]]
  = read_metadata [[{| name := "image_width"; value := TInt 512 |}]].
Proof.
  exact (eq_trans
           (read_metadata_repeated_page []
              [[{| name := "image_width"; value := TInt 512 |}]]
              [{| name := "image_width"; value := TInt 512 |}])
           (read_metadata_repeated_page [] []
              [{| name := "image_width"; value := TInt 512 |}])).
Defined.
(** ** The loop over the sequences *)

Lemma loop_body_sequences_downloads w file :
  downloads (loop_body_sequences w file).1 = downloads w
  ∨ (downloads (loop_body_sequences w file).1 = downloads w ++ [key file]
     ∧ wanted (key file) = false
     ∧ ∃ name, name ∈ exclude_list ∧ ∃ pre post, key file = pre +:+ name +:+ post).
Proof.
  unfold loop_body_sequences. rewrite exclude_flag, orb_false_l.
  destruct (existsb (fun name => contains name (key file)) exclude_list) eqn:Eex; [|by left].
  destruct (endswith (key file) "tif"); [|by left].
  cbn [negb tif_files_done tif_files inventory metadata downloads].
  destruct (bool_decide (key file ∈ tif_files_done w)); [by left|]. cbn [negb]. right.
  split.
  - destruct (content file) as [| |pages]; [done..|].
    by destruct (process_tif (metadata w) pages (key file)) as [[files df]|].
  - split; [unfold wanted; by rewrite Eex|].
    apply existsb_exists in Eex as (name & Hin & Hc).
    exists name. by rewrite list_elem_of_In, <- contains_spec.
Qed.

Lemma loop_body_downloads w file :
  downloads (loop_body w file).1 = downloads w
  ∨ (downloads (loop_body w file).1 = downloads w ++ [key file] ∧ wanted (key file) = true).
Proof.
  destruct (loop_body_cases w file)
    as [[_ H]|[(_ & _ & H)|[(Hw & _ & e' & H & _)|(Hw & _ & p & d & _ & _ & H)]]];
    rewrite H; [by left..| |]; by right.
Qed.

(** X16. The two loops share the bucket between them: the batch loop
    fetches only keys that hold no name of the exclude list, the loop over
    the sequences only keys that hold one, so no key is fetched by both. *)
Theorem loops_split_the_bucket (w : notebook) (files : list s3_object) (k : string) :
  (k ∈ downloads (batch_loop w files).1 → k ∈ downloads w ∨ wanted k = true)
  ∧ (k ∈ downloads (batch_loop_sequences w files).1 →
     k ∈ downloads w
     ∨ (wanted k = false ∧ ∃ name, name ∈ exclude_list ∧ ∃ pre post, k = pre +:+ name +:+ post)).
Proof.
  split.
  - revert w. induction files as [|file files IH]; intros w; cbn [batch_loop]; [by left|].
    destruct (loop_body_downloads w file) as [Hd|[Hd Hw]];
      destruct (loop_body w file) as [w1 [e|]]; cbn [fst] in *.
    + rewrite Hd. by left.
    + intros [Hk|Hk]%IH; [|by right]. rewrite Hd in Hk. by left.
    + rewrite Hd, elem_of_app, list_elem_of_singleton. intros [?| ->]; [by left | by right].
    + intros [Hk|Hk]%IH; [|by right].
      rewrite Hd, elem_of_app, list_elem_of_singleton in Hk.
      destruct Hk as [?| ->]; [by left | by right].
  - revert w. induction files as [|file files IH]; intros w; cbn [batch_loop_sequences];
      [by left|].
    destruct (loop_body_sequences_downloads w file) as [Hd|[Hd Hex]];
      destruct (loop_body_sequences w file) as [w1 [e|]]; cbn [fst] in *.
    + rewrite Hd. by left.
    + intros [Hk|Hk]%IH; [|by right]. rewrite Hd in Hk. by left.
    + rewrite Hd, elem_of_app, list_elem_of_singleton. intros [?| ->]; [by left | by right].
    + intros [Hk|Hk]%IH; [|by right].
      rewrite Hd, elem_of_app, list_elem_of_singleton in Hk.
      destruct Hk as [?| ->]; [by left | by right].
Qed.
(** ** A description that is not ASCII *)

(** X4. A description with a byte from 128 on makes its tag raise
    [UnicodeDecodeError], whatever the other bytes and the dictionary are,
    and so [read_metadata] raises on the file; a description of bytes below
    128 is decoded byte for byte and its lines are stored. *)
Theorem description_not_ascii (d : gmap string pyval) (tag : TiffTag) (bs : list Byte.byte) :
  name tag = "image_description" → value tag = TBytes bs →
  (Exists (fun b => (128 ≤ Byte.to_N b)%N) bs →
   store_tag d tag = Raise UnicodeDecodeError
   ∧ ∀ tif page, page ∈ tif → tag ∈ page → ∃ e, read_metadata tif = Raise e)
  ∧ (Forall (fun b => (Byte.to_N b < 128)%N) bs →
     ∃ s, encode s = bs
          ∧ store_tag d tag = foldM store_item d (removelast (split_on LF s))).
Proof.
  intros Hname Hvalue. destruct (decode_ascii_spec bs) as [Hok Hraise].
  assert (∀ d, store_tag d tag
               = (items ← (text ← decode_ascii bs; Ok (removelast (split_on LF text)));
                  foldM store_item d items)) as Htag.
  { intros d0. rewrite store_tag_description by done. unfold description_items.
    by rewrite Hvalue. }
  split.
  - intros Hbs%Hraise. split; [by rewrite Htag, Hbs|].
    intros tif page Hpage Hin. unfold read_metadata.
    apply (foldM_raises (foldM store_tag) page tif); [|done].
    intros b. apply (foldM_raises store_tag tag page); [|done].
    intros b'. exists UnicodeDecodeError. by rewrite Htag, Hbs.
  - intros (s & Hs & Henc & _)%Hok. exists s. split; [done|]. by rewrite Htag, Hs.
Qed.

(** The micro sign of Latin-1 in the unit of length. *)
Lemma description_not_ascii_witness :
  store_tag ∅ (description ("unit=" +:+ String "181" ("m" +:+ String LF EmptyString)))
  = Raise UnicodeDecodeError.
Proof.
  refine (proj1 (proj1 (description_not_ascii ∅
            (description ("unit=" +:+ String "181" ("m" +:+ String LF EmptyString)))
            (encode ("unit=" +:+ String "181" ("m" +:+ String LF EmptyString)))
            eq_refl eq_refl) _)).
  do 5 apply Exists_cons_tl. apply Exists_cons_hd. by vm_compute.
Defined.
